(** * Harvest Tutor: the diagnose page and its image upload component

    A shallow embedding of [frontend/src/app/diagnose/page.tsx]
    (component [DiagnosePage]) and of the [ImageUpload] component it
    mounts, with the properties the specification states about the
    diagnosis workflow.

    React state cells are fields of a store, the [setX] functions are
    the constructors of [Setter], and an [async] handler is a tree of
    effects ([Async]) that suspends at every [await].  Two semantics are
    given to such trees: [run] answers every remote call at once from a
    gateway oracle (one analysis cycle, nothing in between), and [step]
    is the event loop of the page, where user events and gateway replies
    interleave. *)

From Stdlib Require Import ZArith QArith String List Bool Lia.
From stdpp Require Import base option strings gmap list.

Local Open Scope string_scope.

(** ** Values of the page *)

(** The browser's [File]: the three fields the code reads. *)
Record File : Type := mkFile {
  file_name : string;
  file_type : string;
  file_size : Z
}.

(** [type AnalysisState = 'idle' | 'predicting' | 'explaining' |
    'generating-voice' | 'complete' | 'error'] *)
Inductive AnalysisState : Type :=
| Idle | Predicting | Explaining | GeneratingVoice | Complete | Error.

Global Instance AnalysisState_eq_dec : EqDecision AnalysisState.
Proof. solve_decision. Defined.

Global Instance File_eq_dec : EqDecision File.
Proof. solve_decision. Defined.

(** [CROPS] and [LANGUAGES]; the icon and flag glyphs are decoration and
    are left out. *)
Record Crop : Type := { crop_name : string }.
Record Language : Type := { lang_name : string; lang_code : string }.

Definition CROPS : list Crop :=
  [ {| crop_name := "Tomato" |}; {| crop_name := "Potato" |};
    {| crop_name := "Apple" |} ].

Definition LANGUAGES : list Language :=
  [ {| lang_name := "English"; lang_code := "en" |};
    {| lang_name := "Hindi";   lang_code := "hi" |};
    {| lang_name := "Telugu";  lang_code := "te" |};
    {| lang_name := "Tamil";   lang_code := "ta" |};
    {| lang_name := "Bengali"; lang_code := "bn" |};
    {| lang_name := "Marathi"; lang_code := "mr" |} ].

(** The [useState] cells of [DiagnosePage].  [confidence] is a JS number
    that the page only stores and prints; it is carried as a rational. *)
Record PageState : Type := mkPage {
  selectedCrop : string;
  selectedLanguage : string;
  selectedImage : option File;
  analysisState : AnalysisState;
  disease : string;
  confidence : Q;
  explanation : string;
  audioBase64 : string;
  error : string
}.

(** The [useState] cells of [ImageUpload]. *)
Record UploadState : Type := mkUpload {
  dragActive : bool;
  preview : option string
}.

Record Store : Type := mkStore {
  page : PageState;
  upload : UploadState
}.

Definition initialPage : PageState :=
  {| selectedCrop := "Tomato"; selectedLanguage := "English";
     selectedImage := None; analysisState := Idle; disease := "";
     confidence := 0%Q; explanation := ""; audioBase64 := ""; error := "" |}.

Definition initialUpload : UploadState :=
  {| dragActive := false; preview := None |}.

Definition initialStore : Store :=
  {| page := initialPage; upload := initialUpload |}.

(** ** JavaScript truthiness on the values the page tests *)

(** A string is truthy when it is not empty. *)
Definition truthy (s : string) : bool :=
  match s with EmptyString => false | String _ _ => true end.

(** An optional field ([undefined] when absent) is truthy when present
    and not empty. *)
Definition truthy_opt (o : option string) : bool :=
  match o with Some s => truthy s | None => false end.

(** [o || d] on an optional string. *)
Definition or_else (o : option string) (d : string) : string :=
  match o with
  | Some s => if truthy s then s else d
  | None => d
  end.

(** [o || d] on an optional number: [undefined] and [0] are falsy. *)
Definition num_or_else (o : option Q) (d : Q) : Q :=
  match o with
  | Some q => if Qeq_bool q 0 then d else q
  | None => d
  end.

(** What reading a property of an object literal with string values can
    give: a string, or one of the functions and objects that every
    plain object inherits from [Object.prototype]. *)
Inductive JsValue : Type :=
| JsString (s : string)
| JsInherited (key : string).

(** The property names of [Object.prototype] (ECMAScript, Annex B
    included): a lookup on a plain object finds them when the object
    has no own property of that name. *)
Definition objectPrototypeKeys : list string :=
  ["constructor"; "hasOwnProperty"; "isPrototypeOf"; "propertyIsEnumerable";
   "toLocaleString"; "toString"; "valueOf"; "__proto__";
   "__defineGetter__"; "__defineSetter__"; "__lookupGetter__";
   "__lookupSetter__"].

(** [o[key]] on an object literal [o] with string values; [None] is
    [undefined]. *)
Definition get_property (o : gmap string string) (key : string)
  : option JsValue :=
  match o !! key with
  | Some v => Some (JsString v)
  | None =>
      if bool_decide (key ∈ objectPrototypeKeys)
      then Some (JsInherited key) else None
  end.

(** [v || d] on such a value: an inherited function or object is
    truthy. *)
Definition value_or_else (v : option JsValue) (d : string) : JsValue :=
  match v with
  | Some (JsString x) => if truthy x then JsString x else JsString d
  | Some (JsInherited key) => JsInherited key
  | None => JsString d
  end.

(** ** The remote service gateway, as the page sees it *)

(** Modelled from the spec: [lib/api] is not among the sources; the
    three result shapes are the fields [handleAnalyze] reads from them,
    each optional but the success flag (ClassificationResult,
    ExplanationResult and VoiceResult of the data model). *)
Record PredictionResult : Type := mkPrediction {
  pr_success : bool;
  pr_disease : option string;
  pr_confidence : option Q;
  pr_error : option string
}.

Record ExplanationResult : Type := mkExplanation {
  er_success : bool;
  er_explanation : option string;
  er_error : option string
}.

Record VoiceResult : Type := mkVoice {
  vr_success : bool;
  vr_audioBase64 : option string;
  vr_error : option string
}.

(** The calls [handleAnalyze] awaits, with their arguments. *)
Inductive Request : Type :=
| predictDisease (image : File) (crop : string)
| getExplanation (crop diseaseName language : string)
| generateVoice (text language : string).

Definition Response (r : Request) : Type :=
  match r with
  | predictDisease _ _ => PredictionResult
  | getExplanation _ _ _ => ExplanationResult
  | generateVoice _ _ => VoiceResult
  end.

(** What a [catch] clause can receive: an [Error] object with its
    message, or any other value. *)
Inductive Thrown : Type :=
| ErrorObj (message : string)
| OtherValue.

(** A settled promise. *)
Inductive Settled (A : Type) : Type :=
| Fulfilled (a : A)
| Rejected (e : Thrown).
Arguments Fulfilled {A} a.
Arguments Rejected {A} e.

(** ** State updates and outputs *)

Inductive Setter : Type :=
| setSelectedCrop (c : string)
| setSelectedLanguage (l : string)
| setSelectedImage (f : option File)
| setAnalysisState (a : AnalysisState)
| setDisease (d : string)
| setConfidence (c : Q)
| setExplanation (e : string)
| setAudioBase64 (a : string)
| setError (e : string)
| setDragActive (b : bool)
| setPreview (p : option string).

Definition with_page (f : PageState -> PageState) (st : Store) : Store :=
  {| page := f (page st); upload := upload st |}.

Definition with_upload (f : UploadState -> UploadState) (st : Store) : Store :=
  {| page := page st; upload := f (upload st) |}.

Definition apply_setter (u : Setter) (st : Store) : Store :=
  match u with
  | setSelectedCrop c =>
      with_page (fun p => mkPage c (selectedLanguage p) (selectedImage p)
        (analysisState p) (disease p) (confidence p) (explanation p)
        (audioBase64 p) (error p)) st
  | setSelectedLanguage l =>
      with_page (fun p => mkPage (selectedCrop p) l (selectedImage p)
        (analysisState p) (disease p) (confidence p) (explanation p)
        (audioBase64 p) (error p)) st
  | setSelectedImage f =>
      with_page (fun p => mkPage (selectedCrop p) (selectedLanguage p) f
        (analysisState p) (disease p) (confidence p) (explanation p)
        (audioBase64 p) (error p)) st
  | setAnalysisState a =>
      with_page (fun p => mkPage (selectedCrop p) (selectedLanguage p)
        (selectedImage p) a (disease p) (confidence p) (explanation p)
        (audioBase64 p) (error p)) st
  | setDisease d =>
      with_page (fun p => mkPage (selectedCrop p) (selectedLanguage p)
        (selectedImage p) (analysisState p) d (confidence p) (explanation p)
        (audioBase64 p) (error p)) st
  | setConfidence c =>
      with_page (fun p => mkPage (selectedCrop p) (selectedLanguage p)
        (selectedImage p) (analysisState p) (disease p) c (explanation p)
        (audioBase64 p) (error p)) st
  | setExplanation e =>
      with_page (fun p => mkPage (selectedCrop p) (selectedLanguage p)
        (selectedImage p) (analysisState p) (disease p) (confidence p) e
        (audioBase64 p) (error p)) st
  | setAudioBase64 a =>
      with_page (fun p => mkPage (selectedCrop p) (selectedLanguage p)
        (selectedImage p) (analysisState p) (disease p) (confidence p)
        (explanation p) a (error p)) st
  | setError e =>
      with_page (fun p => mkPage (selectedCrop p) (selectedLanguage p)
        (selectedImage p) (analysisState p) (disease p) (confidence p)
        (explanation p) (audioBase64 p) e) st
  | setDragActive b =>
      with_upload (fun u => mkUpload b (preview u)) st
  | setPreview p =>
      with_upload (fun u => mkUpload (dragActive u) p) st
  end.

(** What a handler does to the outside besides calling the gateway. *)
Inductive Output : Type :=
| alert (msg : string)
| console_error (label : string) (err : Thrown)
| readAsDataURL (file : File)
| speak (text : string) (lang : JsValue).

(** ** Handlers as effect trees *)

Inductive Async (A : Type) : Type :=
| Return (a : A)
| Throw (e : Thrown)
| Update (u : Setter) (k : Async A)
| Emit (o : Output) (k : Async A)
| Await (r : Request) (k : Settled (Response r) -> Async A).
Arguments Return {A} a.
Arguments Throw {A} e.
Arguments Update {A} u k.
Arguments Emit {A} o k.
Arguments Await {A} r k.

Fixpoint bind {A B : Type} (m : Async A) (f : A -> Async B) : Async B :=
  match m with
  | Return a => f a
  | Throw e => Throw e
  | Update u k => Update u (bind k f)
  | Emit o k => Emit o (bind k f)
  | Await r k => Await r (fun o => bind (k o) f)
  end.

(** [try { m } catch (err) { h err }] *)
Fixpoint try_catch {A : Type} (m : Async A) (h : Thrown -> Async A) : Async A :=
  match m with
  | Return a => Return a
  | Throw e => h e
  | Update u k => Update u (try_catch k h)
  | Emit o k => Emit o (try_catch k h)
  | Await r k => Await r (fun o => try_catch (k o) h)
  end.

Global Instance Async_ret : MRet Async := fun A a => Return a.
Global Instance Async_bind : MBind Async := fun A B f m => bind m f.

Definition set (u : Setter) : Async unit := Update u (Return tt).
Definition emit (o : Output) : Async unit := Emit o (Return tt).
Definition throw {A : Type} (e : Thrown) : Async A := Throw e.

(** [await r]: the value of a fulfilled promise, the rejection thrown. *)
Definition await (r : Request) : Async (Response r) :=
  Await r (fun o => match o with
                    | Fulfilled a => Return a
                    | Rejected e => Throw e
                    end).

(** ** DiagnosePage *)

Definition handleImageSelect (file : File) : Async unit :=
  set (setSelectedImage (Some file));;
  set (setAnalysisState Idle);;
  set (setDisease "");;
  set (setExplanation "");;
  set (setAudioBase64 "");;
  set (setError "").

Definition handleClearImage : Async unit :=
  set (setSelectedImage None);;
  set (setAnalysisState Idle);;
  set (setDisease "");;
  set (setExplanation "");;
  set (setAudioBase64 "");;
  set (setError "").

Definition fallbackExplanation : string :=
  "Expert explanation currently unavailable. Please check the disease name and consult a local agronomist.".

Definition noImageMessage : string := "Please upload an image first".
Definition predictFailedMessage : string := "Failed to predict disease".
Definition unknownErrorMessage : string := "An error occurred during analysis".

(** [handleAnalyze] closes over the state of the render it was created
    in: [s] is that state, and the setters act on the live store. *)
Definition handleAnalyze (s : PageState) : Async unit :=
  match selectedImage s with
  | None => set (setError noImageMessage)
  | Some image =>
      try_catch
        (set (setAnalysisState Predicting);;
         set (setError "");;
         predictionResult ← await (predictDisease image (selectedCrop s));
         (if negb (pr_success predictionResult)
             || negb (truthy_opt (pr_disease predictionResult))
          then throw (ErrorObj (or_else (pr_error predictionResult)
                                        predictFailedMessage))
          else mret tt);;
         let diseaseName := default "" (pr_disease predictionResult) in
         set (setDisease diseaseName);;
         set (setConfidence (num_or_else (pr_confidence predictionResult) 0));;
         set (setAnalysisState Explaining);;
         explanationResult ←
           await (getExplanation (selectedCrop s) diseaseName
                                 (selectedLanguage s));
         let explText :=
           if er_success explanationResult
              && truthy_opt (er_explanation explanationResult)
           then default "" (er_explanation explanationResult)
           else fallbackExplanation in
         set (setExplanation explText);;
         set (setAnalysisState GeneratingVoice);;
         voiceResult ← await (generateVoice explText (selectedLanguage s));
         (if vr_success voiceResult && truthy_opt (vr_audioBase64 voiceResult)
          then set (setAudioBase64 (default "" (vr_audioBase64 voiceResult)))
          else set (setAudioBase64 ""));;
         set (setAnalysisState Complete))
        (fun err =>
           emit (console_error "Analysis error:" err);;
           set (setError (match err with
                          | ErrorObj message => message
                          | OtherValue => unknownErrorMessage
                          end));;
           set (setAnalysisState Error))
  end.

Definition getLoadingMessage (a : AnalysisState) : string :=
  match a with
  | Predicting => "Analyzing crop image..."
  | Explaining => "Getting expert explanation..."
  | GeneratingVoice => "Generating voice guidance..."
  | _ => "Processing..."
  end.

(** [['predicting', 'explaining', 'generating-voice'].includes(analysisState)] *)
Definition isLoading (a : AnalysisState) : bool :=
  bool_decide (a ∈ [Predicting; Explaining; GeneratingVoice]).

(** *** What the page renders

    One boolean per conditional block of the JSX, in source order. *)

(** [disabled={!selectedImage || isLoading}] on the Analyze button. *)
Definition analyzeDisabled (s : PageState) : bool :=
  negb (bool_decide (is_Some (selectedImage s))) || isLoading (analysisState s).

(** [{error && (...)}] *)
Definition rendersErrorPanel (s : PageState) : bool := truthy (error s).

(** [{disease && (...)}] *)
Definition rendersDiseaseCard (s : PageState) : bool := truthy (disease s).

(** [{explanation && (...)}] *)
Definition rendersExplanation (s : PageState) : bool := truthy (explanation s).

(** [{audioBase64 && (<AudioPlayer .../>)}] *)
Definition rendersAudioPlayer (s : PageState) : bool := truthy (audioBase64 s).

(** [{explanation && !audioBase64 && analysisState === 'complete' && (...)}] *)
Definition rendersSpeechFallback (s : PageState) : bool :=
  truthy (explanation s) && negb (truthy (audioBase64 s))
  && bool_decide (analysisState s = Complete).

(** [{analysisState === 'idle' && !error && (...)}] *)
Definition rendersIdlePlaceholder (s : PageState) : bool :=
  bool_decide (analysisState s = Idle) && negb (truthy (error s)).

(** *** The local speech fallback *)

(** [const langMap: any = { 'Hindi': 'hi-IN', 'English': 'en-US' }]:
    the own properties of the object. *)
Definition langMap : gmap string string :=
  {[ "Hindi" := "hi-IN"; "English" := "en-US" ]}.

(** [langMap[selectedLanguage] || 'en-US'], the value assigned to
    [utterance.lang]. *)
Definition utteranceLang (language : string) : JsValue :=
  value_or_else (get_property langMap language) "en-US".

(** The [onClick] of "Listen to Explanation". *)
Definition handleListen (s : PageState) : Async unit :=
  emit (speak (explanation s) (utteranceLang (selectedLanguage s))).

(** ** ImageUpload *)

Section ImageUpload.

(** The props the component calls. *)
Variable onImageSelect : File -> Async unit.
Variable onClear : Async unit.

Definition maxFileSize : Z := 10 * 1024 * 1024.

Definition handleFile (file : File) : Async unit :=
  if negb (String.prefix "image/" (file_type file)) then
    emit (alert "Please upload an image file")
  else if (maxFileSize <? file_size file)%Z then
    emit (alert "File size must be less than 10MB")
  else
    (* the reader's [onloadend] sets the preview later *)
    emit (readAsDataURL file);;
    onImageSelect file.

(** [handleDrag]: [eventType] is [e.type]. *)
Definition handleDrag (eventType : string) : Async unit :=
  if bool_decide (eventType = "dragenter") || bool_decide (eventType = "dragover")
  then set (setDragActive true)
  else if bool_decide (eventType = "dragleave")
  then set (setDragActive false)
  else mret tt.

(** [handleDrop]: [files] is [e.dataTransfer.files]. *)
Definition handleDrop (files : list File) : Async unit :=
  set (setDragActive false);;
  match files with
  | file :: _ => handleFile file
  | [] => mret tt
  end.

(** [handleChange]: [files] is [e.target.files]. *)
Definition handleChange (files : list File) : Async unit :=
  match files with
  | file :: _ => handleFile file
  | [] => mret tt
  end.

(** [reader.onloadend]: [result] is [reader.result]. *)
Definition onloadend (result : option string) : Async unit :=
  set (setPreview result).

Definition handleClear : Async unit :=
  set (setPreview None);;
  onClear.

End ImageUpload.

(** [{!preview ? (drop zone and file input) : (preview and remove button)}] *)
Definition rendersPreview (u : UploadState) : bool := truthy_opt (preview u).

(** ** One handler run to its end against a gateway oracle *)

(** Modelled from the spec: the three operations of [lib/api], as the
    answers they give; a rejected promise is allowed for, although the
    gateway contract promises a structured result every time. *)
Record Gateway : Type := mkGateway {
  gw_predictDisease : File -> string -> Settled PredictionResult;
  gw_getExplanation : string -> string -> string -> Settled ExplanationResult;
  gw_generateVoice : string -> string -> Settled VoiceResult
}.

Definition answer (gw : Gateway) (r : Request) : Settled (Response r) :=
  match r with
  | predictDisease image crop => gw_predictDisease gw image crop
  | getExplanation crop d language => gw_getExplanation gw crop d language
  | generateVoice text language => gw_generateVoice gw text language
  end.

(** What an observer sees of a run: outputs, and each remote call with
    the store as it stands while the call is pending. *)
Inductive Obs : Type :=
| Out (o : Output)
| Called (r : Request) (pending : Store).

Record Outcome (A : Type) : Type := mkOutcome {
  final : Store;
  trace : list Obs;
  result : Settled A
}.
Arguments mkOutcome {A} final trace result.
Arguments final {A} o.
Arguments trace {A} o.
Arguments result {A} o.

Definition observe {A : Type} (ob : Obs) (out : Outcome A) : Outcome A :=
  {| final := final out; trace := ob :: trace out; result := result out |}.

Fixpoint run {A : Type} (gw : Gateway) (m : Async A) (st : Store) : Outcome A :=
  match m with
  | Return a => {| final := st; trace := []; result := Fulfilled a |}
  | Throw e => {| final := st; trace := []; result := Rejected e |}
  | Update u k => run gw k (apply_setter u st)
  | Emit o k => observe (Out o) (run gw k st)
  | Await r k => observe (Called r st) (run gw (k (answer gw r)) st)
  end.

(** The remote calls of a trace, in order. *)
Fixpoint calls (tr : list Obs) : list Request :=
  match tr with
  | [] => []
  | Called r _ :: tr' => r :: calls tr'
  | Out _ :: tr' => calls tr'
  end.

(** One analysis cycle: the Analyze click on the rendered state, every
    call answered by [gw], nothing in between. *)
Definition cycle (gw : Gateway) (st : Store) : Outcome unit :=
  run gw (handleAnalyze (page st)) st.

(** The page's [ImageUpload] element. *)
Definition selectFile (file : File) : Async unit :=
  handleFile handleImageSelect file.

Definition removeImage : Async unit :=
  handleClear handleClearImage.

(** ** The event loop of the page *)

(** A handler parked at an [await]: the call it waits for and what it
    does with the settled promise. *)
Inductive Suspended : Type :=
| Susp (r : Request) (k : Settled (Response r) -> Async unit).

Record Progress : Type := mkProgress {
  reached : Store;
  emitted : list Output;
  parked : option Suspended
}.

(** A handler runs until it returns or reaches its next [await]; an
    exception nobody caught ends it too. *)
Fixpoint advance (m : Async unit) (st : Store) : Progress :=
  match m with
  | Return _ => {| reached := st; emitted := []; parked := None |}
  | Throw _ => {| reached := st; emitted := []; parked := None |}
  | Update u k => advance k (apply_setter u st)
  | Emit o k =>
      let p := advance k st in
      {| reached := reached p; emitted := o :: emitted p; parked := parked p |}
  | Await r k => {| reached := st; emitted := []; parked := Some (Susp r k) |}
  end.

(** A browser session: the store, the handlers parked at a remote call,
    the file readers still reading, and everything output so far. *)
Record Session : Type := mkSession {
  store : Store;
  inflight : list Suspended;
  readers : list File;
  outputs : list Output
}.

Definition initialSession : Session :=
  {| store := initialStore; inflight := []; readers := []; outputs := [] |}.

Fixpoint started_reads (os : list Output) : list File :=
  match os with
  | [] => []
  | readAsDataURL f :: os' => f :: started_reads os'
  | _ :: os' => started_reads os'
  end.

Definition dispatch (m : Async unit) (ss : Session) : Session :=
  let p := advance m (store ss) in
  {| store := reached p;
     inflight := inflight ss ++ option_list (parked p);
     readers := readers ss ++ started_reads (emitted p);
     outputs := outputs ss ++ emitted p |}.

(** A settled gateway promise of one of the three kinds. *)
Inductive Reply : Type :=
| predicted (o : Settled PredictionResult)
| explained (o : Settled ExplanationResult)
| voiced (o : Settled VoiceResult).

(** The parked handler continues when the reply is of the kind it waits
    for. *)
Definition resume (sus : Suspended) (rep : Reply) : option (Async unit) :=
  match sus with
  | Susp r k =>
      match r as r' return (Settled (Response r') -> Async unit) -> option (Async unit) with
      | predictDisease _ _ => fun k' =>
          match rep with predicted o => Some (k' o) | _ => None end
      | getExplanation _ _ _ => fun k' =>
          match rep with explained o => Some (k' o) | _ => None end
      | generateVoice _ _ => fun k' =>
          match rep with voiced o => Some (k' o) | _ => None end
      end k
  end.

Inductive Event : Type :=
| ClickCrop (c : string)
| ClickLanguage (l : string)
| Dragged (eventType : string)
| FilesDropped (files : list File)
| InputChanged (files : list File)
| ClickRemove
| ClickAnalyze
| ClickListen
| LoadEnd (i : nat) (readerResult : option string)
| Settle (i : nat) (rep : Reply).

(** One turn of the event loop; [None] when the page as rendered does
    not offer the event (a disabled button, a block that is not shown,
    no such pending call). *)
Definition step (ss : Session) (ev : Event) : option Session :=
  let st := store ss in
  match ev with
  | ClickCrop c =>
      if bool_decide (c ∈ map crop_name CROPS)
      then Some (dispatch (set (setSelectedCrop c)) ss) else None
  | ClickLanguage l =>
      if bool_decide (l ∈ map lang_name LANGUAGES)
      then Some (dispatch (set (setSelectedLanguage l)) ss) else None
  | Dragged eventType =>
      if rendersPreview (upload st) then None
      else Some (dispatch (handleDrag eventType) ss)
  | FilesDropped files =>
      if rendersPreview (upload st) then None
      else Some (dispatch (handleDrop handleImageSelect files) ss)
  | InputChanged files =>
      if rendersPreview (upload st) then None
      else Some (dispatch (handleChange handleImageSelect files) ss)
  | ClickRemove =>
      if rendersPreview (upload st) then Some (dispatch removeImage ss)
      else None
  | ClickAnalyze =>
      if analyzeDisabled (page st) then None
      else Some (dispatch (handleAnalyze (page st)) ss)
  | ClickListen =>
      if rendersSpeechFallback (page st)
      then Some (dispatch (handleListen (page st)) ss) else None
  | LoadEnd i readerResult =>
      match readers ss !! i with
      | Some _ =>
          Some (dispatch (onloadend readerResult)
                  {| store := st; inflight := inflight ss;
                     readers := delete i (readers ss);
                     outputs := outputs ss |})
      | None => None
      end
  | Settle i rep =>
      match inflight ss !! i with
      | Some sus =>
          match resume sus rep with
          | Some m =>
              Some (dispatch m
                      {| store := st; inflight := delete i (inflight ss);
                         readers := readers ss; outputs := outputs ss |})
          | None => None
          end
      | None => None
      end
  end.

Fixpoint exec (ss : Session) (evs : list Event) : option Session :=
  match evs with
  | [] => Some ss
  | ev :: evs' =>
      match step ss ev with
      | Some ss' => exec ss' evs'
      | None => None
      end
  end.

(** * Vocabulary of the properties *)

(** The text [handleAnalyze] binds to [explText]. *)
Definition explTextOf (e : ExplanationResult) : string :=
  if er_success e && truthy_opt (er_explanation e)
  then default "" (er_explanation e) else fallbackExplanation.

(** The payload [handleAnalyze] stores after the voice call. *)
Definition audioOf (v : VoiceResult) : string :=
  if vr_success v && truthy_opt (vr_audioBase64 v)
  then default "" (vr_audioBase64 v) else "".

Definition apply_setters (us : list Setter) (st : Store) : Store :=
  fold_left (fun acc u => apply_setter u acc) us st.

(** The stores a cycle goes through, one per synchronous stretch of
    [handleAnalyze]. *)
Definition st_predicting (st : Store) : Store :=
  apply_setters [setAnalysisState Predicting; setError ""] st.

Definition st_failed (message : string) (st : Store) : Store :=
  apply_setters [setError message; setAnalysisState Error] st.

Definition st_explaining (d : string) (c : option Q) (st : Store) : Store :=
  apply_setters [setDisease d; setConfidence (num_or_else c 0);
                 setAnalysisState Explaining] (st_predicting st).

Definition st_voice (d : string) (c : option Q) (text : string) (st : Store)
  : Store :=
  apply_setters [setExplanation text; setAnalysisState GeneratingVoice]
                (st_explaining d c st).

Definition st_complete (d : string) (c : option Q) (text audio : string)
  (st : Store) : Store :=
  apply_setters [setAudioBase64 audio; setAnalysisState Complete]
                (st_voice d c text st).

(** Media Intake's acceptance condition, in the words of the
    specification. *)
Definition acceptable (file : File) : Prop :=
  String.prefix "image/" (file_type file) = true
  /\ (file_size file <= 10485760)%Z.

(** *** Stage discipline of a handler

    [keeps_stage a m]: started while the analysis state is [a], the
    handler [m] shows a loading stage whenever it waits for the gateway
    and a resting stage when it ends. *)
Definition stage_after (u : Setter) (a : AnalysisState) : AnalysisState :=
  match u with
  | setAnalysisState a' => a'
  | _ => a
  end.

Fixpoint keeps_stage (a : AnalysisState) (m : Async unit) : Prop :=
  match m with
  | Return _ => isLoading a = false
  | Throw _ => isLoading a = false
  | Update u k => keeps_stage (stage_after u a) k
  | Emit _ k => keeps_stage a k
  | Await r k => isLoading a = true /\ forall o, keeps_stage a (k o)
  end.

(** A handler that neither waits nor touches the analysis state. *)
Fixpoint inert (m : Async unit) : bool :=
  match m with
  | Return _ => true
  | Throw _ => true
  | Update (setAnalysisState _) _ => false
  | Update _ k => inert k
  | Emit _ k => inert k
  | Await _ _ => false
  end.

(** The events by which the user offers a file or removes the image. *)
Definition touches_image (ev : Event) : bool :=
  match ev with
  | FilesDropped _ | InputChanged _ | ClickRemove => true
  | _ => false
  end.

(** A run of events during which no file is offered and the image is
    not removed while a remote call is pending. *)
Fixpoint undisturbed (ss : Session) (evs : list Event) : Prop :=
  match evs with
  | [] => True
  | ev :: evs' =>
      (touches_image ev = true -> inflight ss = [])
      /\ match step ss ev with
         | Some ss' => undisturbed ss' evs'
         | None => True
         end
  end.

(** At most one cycle is in flight, and the analysis state says so. *)
Definition in_step (ss : Session) : Prop :=
  let a := analysisState (page (store ss)) in
  match inflight ss with
  | [] => isLoading a = false
  | [Susp r k] => isLoading a = true /\ forall o, keeps_stage a (k o)
  | _ => False
  end.

(** The calls a session is waiting for, oldest first. *)
Definition pending_requests (ss : Session) : list Request :=
  map (fun sus => match sus with Susp r _ => r end) (inflight ss).

(** *** Scenario data (section 8 of the specification) *)

Definition leaf : File :=
  {| file_name := "healthy_leaf.jpg"; file_type := "image/jpeg";
     file_size := 3 * 1024 * 1024 |}.

Definition early_blight : PredictionResult :=
  {| pr_success := true; pr_disease := Some "Early Blight";
     pr_confidence := Some (87 # 100); pr_error := None |}.

Definition model_unavailable : PredictionResult :=
  {| pr_success := false; pr_disease := None; pr_confidence := None;
     pr_error := Some "model unavailable" |}.

Definition blight_explained : ExplanationResult :=
  {| er_success := true; er_explanation := Some "Early blight is caused by...";
     er_error := None |}.

Definition explanation_down : ExplanationResult :=
  {| er_success := false; er_explanation := None;
     er_error := Some "quota exceeded" |}.

Definition voice_ready : VoiceResult :=
  {| vr_success := true; vr_audioBase64 := Some "<b64>"; vr_error := None |}.

Definition voice_down : VoiceResult :=
  {| vr_success := false; vr_audioBase64 := None;
     vr_error := Some "tts unavailable" |}.

Definition constant_gateway (r : PredictionResult) (e : ExplanationResult)
  (v : VoiceResult) : Gateway :=
  {| gw_predictDisease := fun _ _ => Fulfilled r;
     gw_getExplanation := fun _ _ _ => Fulfilled e;
     gw_generateVoice := fun _ _ => Fulfilled v |}.

Definition gw_ok : Gateway :=
  constant_gateway early_blight blight_explained voice_ready.

Definition gw_model_unavailable : Gateway :=
  constant_gateway model_unavailable blight_explained voice_ready.

Definition gw_explanation_down : Gateway :=
  constant_gateway early_blight explanation_down voice_ready.

Definition gw_voice_down : Gateway :=
  constant_gateway early_blight blight_explained voice_down.

Definition second_leaf : File :=
  {| file_name := "spotted_leaf.png"; file_type := "image/png";
     file_size := 2 * 1024 * 1024 |}.

(** The user chooses [leaf], sees its preview, clicks Analyze, removes
    the image while the classification call is pending and chooses
    [second_leaf]. *)
Definition reselect_during_call : list Event :=
  [InputChanged [leaf]; LoadEnd 0 (Some "data:image/jpeg;base64,AAAA");
   ClickAnalyze; ClickRemove; InputChanged [second_leaf]].

(** The store once [leaf] has been chosen on a fresh page. *)
Definition leaf_selected : Store :=
  final (run gw_ok (selectFile leaf) initialStore).

(** ** More of the page *)

(** The label of the Analyze button:
    [{isLoading ? getLoadingMessage() : 'Analyze Crop'}]. *)
Definition analyzeButtonLabel (s : PageState) : string :=
  if isLoading (analysisState s) then getLoadingMessage (analysisState s)
  else "Analyze Crop".

(** The crop buttons drawn as selected: [selectedCrop === crop.name]. *)
Definition highlightedCrops (s : PageState) : list Crop :=
  filter (fun c => selectedCrop s = crop_name c) CROPS.

(** The language buttons drawn as selected:
    [selectedLanguage === lang.name]. *)
Definition highlightedLanguages (s : PageState) : list Language :=
  filter (fun l => selectedLanguage s = lang_name l) LANGUAGES.

(** *** Vocabulary of the further properties *)

(** The stage [handleAnalyze] shows while it waits for a call. *)
Definition stage_of (r : Request) : AnalysisState :=
  match r with
  | predictDisease _ _ => Predicting
  | getExplanation _ _ _ => Explaining
  | generateVoice _ _ => GeneratingVoice
  end.

(** [staged cur m]: along every path of [m], the analysis state has
    been set to the stage of the call before each [await] and to
    [complete] or [error] before the end, and no exception escapes.  [cur] is
    the state set so far in the current synchronous stretch, if any. *)
Fixpoint staged (cur : option AnalysisState) (m : Async unit) : Prop :=
  match m with
  | Return _ => cur = Some Complete \/ cur = Some Error
  | Throw _ => False
  | Update u k =>
      staged (match u with setAnalysisState a => Some a | _ => cur end) k
  | Emit _ k => staged cur k
  | Await r k => cur = Some (stage_of r) /\ forall o, staged None (k o)
  end.

(** [confined ok_set ok_req m]: [m] performs only state updates that
    satisfy [ok_set] and only calls that satisfy [ok_req]. *)
Fixpoint confined {A : Type} (ok_set : Setter -> Prop)
  (ok_req : Request -> Prop) (m : Async A) : Prop :=
  match m with
  | Return _ => True
  | Throw _ => True
  | Update u k => ok_set u /\ confined ok_set ok_req k
  | Emit _ k => confined ok_set ok_req k
  | Await r k => ok_req r /\ forall o, confined ok_set ok_req (k o)
  end.

Definition parked_confined (ok_set : Setter -> Prop)
  (ok_req : Request -> Prop) (sus : Suspended) : Prop :=
  match sus with
  | Susp r k => ok_req r /\ forall o, confined ok_set ok_req (k o)
  end.

Definition session_confined (ok_store : Store -> Prop)
  (ok_set : Setter -> Prop) (ok_req : Request -> Prop) (ss : Session) : Prop :=
  ok_store (store ss)
  /\ Forall (parked_confined ok_set ok_req) (inflight ss).

(** The page holds a validated image, a crop of [CROPS] and a language
    of [LANGUAGES]. *)
Definition supported_crop (c : string) : Prop := c ∈ map crop_name CROPS.
Definition supported_language (l : string) : Prop :=
  l ∈ map lang_name LANGUAGES.

Definition wf_store (st : Store) : Prop :=
  (forall f, selectedImage (page st) = Some f -> acceptable f)
  /\ supported_crop (selectedCrop (page st))
  /\ supported_language (selectedLanguage (page st)).

Definition wf_set (u : Setter) : Prop :=
  match u with
  | setSelectedImage (Some f) => acceptable f
  | setSelectedCrop c => supported_crop c
  | setSelectedLanguage l => supported_language l
  | _ => True
  end.

Definition wf_req (r : Request) : Prop :=
  match r with
  | predictDisease f c => acceptable f /\ supported_crop c
  | getExplanation c _ l => supported_crop c /\ supported_language l
  | generateVoice _ l => supported_language l
  end.

(** The state updates [handleAnalyze] makes: the stage and the result
    cells. *)
Definition result_set (u : Setter) : Prop :=
  match u with
  | setAnalysisState _ | setDisease _ | setConfidence _ | setExplanation _
  | setAudioBase64 _ | setError _ => True
  | _ => False
  end.

(** What [handleAnalyze] leaves alone. *)
Definition inputs_of (st : Store)
  : string * string * option File * UploadState :=
  (selectedCrop (page st), selectedLanguage (page st),
   selectedImage (page st), upload st).

(** The gateway's answer to a pending call, as an event-loop reply. *)
Definition reply_of (gw : Gateway) (r : Request) : Reply :=
  match r with
  | predictDisease image crop => predicted (gw_predictDisease gw image crop)
  | getExplanation crop d language =>
      explained (gw_getExplanation gw crop d language)
  | generateVoice text language => voiced (gw_generateVoice gw text language)
  end.

(** The event loop with the oldest pending call answered by [gw], up to
    [n] times in a row. *)
Fixpoint drive (gw : Gateway) (n : nat) (ss : Session) : option Session :=
  match n with
  | O => Some ss
  | S n' =>
      match inflight ss with
      | [] => Some ss
      | Susp r _ :: _ =>
          match step ss (Settle 0 (reply_of gw r)) with
          | Some ss' => drive gw n' ss'
          | None => None
          end
      end
  end.

(** A handler that waits at most [n] times along any path. *)
Fixpoint awaits_at_most (n : nat) (m : Async unit) : Prop :=
  match m with
  | Return _ => True
  | Throw _ => True
  | Update _ k => awaits_at_most n k
  | Emit _ k => awaits_at_most n k
  | Await _ k =>
      match n with
      | O => False
      | S n' => forall o, awaits_at_most n' (k o)
      end
  end.

(** Every parked handler sets the stage anew when it continues. *)
Definition restaged (sus : Suspended) : Prop :=
  match sus with
  | Susp _ k => forall o, staged None (k o)
  end.

(** A loading stage on the page is the stage of the call parked last. *)
Definition stage_shown (ss : Session) : Prop :=
  Forall restaged (inflight ss)
  /\ (isLoading (analysisState (page (store ss))) = true ->
      exists earlier r k,
        inflight ss = (earlier ++ [Susp r k])%list
        /\ analysisState (page (store ss)) = stage_of r).

(** *** Error message and error state

    [tidy a e m]: started with analysis state [a] and an error message
    that is non-empty exactly when [e] holds, the handler [m] shows a
    non-empty message exactly in the [error] state whenever it waits
    or ends, as long as every promise it awaits is fulfilled. *)
Definition error_after (u : Setter) (e : bool) : bool :=
  match u with
  | setError x => truthy x
  | _ => e
  end.

Fixpoint tidy (a : AnalysisState) (e : bool) (m : Async unit) : Prop :=
  match m with
  | Return _ => e = true <-> a = Error
  | Throw _ => e = true <-> a = Error
  | Update u k => tidy (stage_after u a) (error_after u e) k
  | Emit _ k => tidy a e k
  | Await _ k => (e = true <-> a = Error) /\ forall x, tidy a e (k (Fulfilled x))
  end.

(** A handler that neither waits nor touches the analysis state or the
    error message. *)
Fixpoint quiet (m : Async unit) : bool :=
  match m with
  | Return _ => true
  | Throw _ => true
  | Update (setAnalysisState _) _ => false
  | Update (setError _) _ => false
  | Update _ k => quiet k
  | Emit _ k => quiet k
  | Await _ _ => false
  end.

Definition message_matches_state (st : Store) : Prop :=
  truthy (error (page st)) = true <-> analysisState (page st) = Error.

Definition tidy_session (ss : Session) : Prop :=
  message_matches_state (store ss)
  /\ match inflight ss with
     | [] => True
     | [Susp _ k] =>
         forall x, tidy (analysisState (page (store ss)))
                        (truthy (error (page (store ss))))
                        (k (Fulfilled x))
     | _ => False
     end.

(** The gateway keeps its contract: the reply is a structured result,
    not a rejected promise. *)
Definition returns (rep : Reply) : Prop :=
  match rep with
  | predicted (Fulfilled _) | explained (Fulfilled _) | voiced (Fulfilled _) =>
      True
  | _ => False
  end.

Definition contract_kept (evs : list Event) : Prop :=
  Forall (fun ev => match ev with
                    | Settle _ rep => returns rep
                    | _ => True
                    end) evs.

(** The result cells and the error message are all empty. *)
Definition cells_empty (s : PageState) : Prop :=
  disease s = "" /\ explanation s = "" /\ audioBase64 s = "" /\ error s = "".

(** A handler that does not wait and sets nothing but the selected crop,
    the selected language, the drag highlight and the preview. *)
Fixpoint selection_only (m : Async unit) : bool :=
  match m with
  | Return _ => true
  | Throw _ => true
  | Update (setSelectedCrop _) k => selection_only k
  | Update (setSelectedLanguage _) k => selection_only k
  | Update (setDragActive _) k => selection_only k
  | Update (setPreview _) k => selection_only k
  | Update _ _ => false
  | Emit _ k => selection_only k
  | Await _ _ => false
  end.

(** An [idle] page has empty cells, and parked handlers set the stage
    anew. *)
Definition idle_is_clean (ss : Session) : Prop :=
  Forall restaged (inflight ss)
  /\ (analysisState (page (store ss)) = Idle -> cells_empty (page (store ss))).

(** *** One cycle at a time *)

(** The events that hand Media Intake a file it accepts. *)
Definition offers_image (ev : Event) : Prop :=
  match ev with
  | FilesDropped (file :: _) => acceptable file
  | InputChanged (file :: _) => acceptable file
  | _ => False
  end.

(** A run of events during which no file that passes validation is
    dropped or chosen while a remote call is pending. *)
Fixpoint no_image_offered_while_pending (ss : Session) (evs : list Event)
  : Prop :=
  match evs with
  | [] => True
  | ev :: evs' =>
      (offers_image ev -> inflight ss = [])
      /\ match step ss ev with
         | Some ss' => no_image_offered_while_pending ss' evs'
         | None => True
         end
  end.

(** At most one cycle is in flight, and while it is the Analyze button
    is disabled. *)
Definition gated (ss : Session) : Prop :=
  match inflight ss with
  | [] => True
  | [Susp _ k] =>
      analyzeDisabled (page (store ss)) = true
      /\ (forall o, staged None (k o))
      /\ (forall o, confined result_set (fun _ => True) (k o))
  | _ => False
  end.

(** *** Error panel and error state in every session *)









(** What the [catch] clause of [handleAnalyze] shows for a thrown
    value. *)
Definition thrown_message (err : Thrown) : string :=
  match err with
  | ErrorObj message => message
  | OtherValue => unknownErrorMessage
  end.

(** * Properties *)

(** ** The paths of one analysis cycle *)

Section CyclePaths.

Variable gw : Gateway.
Variable st : Store.

Lemma cycle_no_image :
  selectedImage (page st) = None ->
  cycle gw st =
    {| final := apply_setter (setError noImageMessage) st;
       trace := []; result := Fulfilled tt |}.
Proof.
  intros Himg. unfold cycle, handleAnalyze. rewrite Himg. reflexivity.
Qed.

Lemma cycle_classification_failed image r :
  selectedImage (page st) = Some image ->
  gw_predictDisease gw image (selectedCrop (page st)) = Fulfilled r ->
  pr_success r && truthy_opt (pr_disease r) = false ->
  cycle gw st =
    let message := or_else (pr_error r) predictFailedMessage in
    {| final := st_failed message (st_predicting st);
       trace := [Called (predictDisease image (selectedCrop (page st)))
                        (st_predicting st);
                 Out (console_error "Analysis error:" (ErrorObj message))];
       result := Fulfilled tt |}.
Proof.
  intros Himg Hgw Hr. unfold cycle, handleAnalyze. rewrite Himg.
  cbn. rewrite Hgw. cbn. rewrite <- negb_andb, Hr. reflexivity.
Qed.

(** Once the disease is known the cycle reaches the voice call,
    whatever the explanation call returned. *)
Lemma cycle_reaches_voice image r d e :
  selectedImage (page st) = Some image ->
  gw_predictDisease gw image (selectedCrop (page st)) = Fulfilled r ->
  pr_success r = true -> pr_disease r = Some d -> truthy d = true ->
  gw_getExplanation gw (selectedCrop (page st)) d
                    (selectedLanguage (page st)) = Fulfilled e ->
  exists rest,
    let c := pr_confidence r in
    trace (cycle gw st) =
      ([Called (predictDisease image (selectedCrop (page st)))
              (st_predicting st);
       Called (getExplanation (selectedCrop (page st)) d
                              (selectedLanguage (page st)))
              (st_explaining d c st);
       Called (generateVoice (explTextOf e) (selectedLanguage (page st)))
              (st_voice d c (explTextOf e) st)] ++ rest)%list
    /\ calls rest = []
    /\ explanation (page (final (cycle gw st))) = explTextOf e.
Proof.
  intros Himg Hgw Hs Hd Ht He. unfold cycle, handleAnalyze. rewrite Himg.
  cbn. rewrite Hgw. cbn. rewrite Hs, Hd. cbn. rewrite Ht. cbn.
  rewrite He. cbn. fold (explTextOf e).
  destruct (gw_generateVoice gw (explTextOf e) (selectedLanguage (page st)))
    as [v | err]; cbn.
  - destruct (vr_success v && truthy_opt (vr_audioBase64 v));
      (eexists; split; [reflexivity | split; reflexivity]).
  - eexists; split; [reflexivity | split; reflexivity].
Qed.

Lemma cycle_classified image r d e v :
  selectedImage (page st) = Some image ->
  gw_predictDisease gw image (selectedCrop (page st)) = Fulfilled r ->
  pr_success r = true -> pr_disease r = Some d -> truthy d = true ->
  gw_getExplanation gw (selectedCrop (page st)) d
                    (selectedLanguage (page st)) = Fulfilled e ->
  gw_generateVoice gw (explTextOf e) (selectedLanguage (page st))
    = Fulfilled v ->
  final (cycle gw st)
    = st_complete d (pr_confidence r) (explTextOf e) (audioOf v) st.
Proof.
  intros Himg Hgw Hs Hd Ht He Hv. unfold cycle, handleAnalyze. rewrite Himg.
  cbn. rewrite Hgw. cbn. rewrite Hs, Hd. cbn. rewrite Ht. cbn.
  rewrite He. cbn. fold (explTextOf e). rewrite Hv. cbn.
  unfold audioOf. destruct (vr_success v && truthy_opt (vr_audioBase64 v));
    reflexivity.
Qed.

End CyclePaths.

Lemma truthy_nonempty (x : string) : truthy x = true <-> x <> "".
Proof. destruct x; cbn; split; intros H; congruence. Qed.

Lemma truthy_empty (x : string) : truthy x = false <-> x = "".
Proof. destruct x; cbn; split; intros H; congruence. Qed.

Lemma or_else_given (m d : string) : m <> "" -> or_else (Some m) d = m.
Proof. intros H. cbn. apply truthy_nonempty in H. now rewrite H. Qed.

Lemma or_else_missing (o : option string) (d : string) :
  o = None \/ o = Some "" -> or_else o d = d.
Proof. intros [-> | ->]; reflexivity. Qed.

(** ** Classification failure (C1) *)

(** C1.  In every analysis cycle whose classification call returns
    [success = false] or no disease label, the final AnalysisState is
    [error], the error message is the gateway's (or the default one when
    the gateway gave none), and the only remote call of the cycle is the
    classification call: neither the explanation nor the voice call is
    made. *)
Theorem classification_failure_is_fatal
  (gw : Gateway) (st : Store) (image : File) (r : PredictionResult) :
  selectedImage (page st) = Some image ->
  gw_predictDisease gw image (selectedCrop (page st)) = Fulfilled r ->
  pr_success r = false \/ truthy_opt (pr_disease r) = false ->
  let out := cycle gw st in
  analysisState (page (final out)) = Error
  /\ (forall m, pr_error r = Some m -> m <> "" ->
        error (page (final out)) = m)
  /\ (pr_error r = None \/ pr_error r = Some "" ->
        error (page (final out)) = predictFailedMessage)
  /\ calls (trace out) = [predictDisease image (selectedCrop (page st))].
Proof.
  intros Himg Hgw Hr out.
  assert (Hguard : pr_success r && truthy_opt (pr_disease r) = false).
  { destruct Hr as [-> | ->]; [reflexivity | apply andb_false_r]. }
  subst out. rewrite (cycle_classification_failed gw st image r Himg Hgw Hguard).
  cbn. split; [reflexivity | split; [| split; [| reflexivity]]].
  - intros m -> Hm. now apply or_else_given.
  - intros H. now apply or_else_missing.
Qed.

Lemma classification_failure_is_fatal_witness :
  let out := cycle gw_model_unavailable leaf_selected in
  analysisState (page (final out)) = Error
  /\ error (page (final out)) = "model unavailable"
  /\ calls (trace out) = [predictDisease leaf "Tomato"].
Proof.
  destruct (classification_failure_is_fatal
              gw_model_unavailable leaf_selected leaf model_unavailable)
    as (Hstate & Hmsg & _ & Hcalls);
    [reflexivity | reflexivity | left; reflexivity | ].
  intros out. split; [exact Hstate | split; [| exact Hcalls]].
  apply (Hmsg "model unavailable"); [reflexivity | discriminate].
Defined.

(** ** Explanation failure (C2) *)

(** C2.  In every analysis cycle whose classification succeeds and whose
    explanation call returns [success = false], the recorded explanation
    is the fixed fallback string, the voice call is made with that text
    (the third and last call of the cycle), the page shows the
    generating-voice stage with no error message while that call is
    pending, and the cycle completes once the voice call returns. *)
Theorem explanation_failure_falls_back
  (gw : Gateway) (st : Store) (image : File) (r : PredictionResult)
  (d : string) (e : ExplanationResult) :
  let crop := selectedCrop (page st) in
  let language := selectedLanguage (page st) in
  selectedImage (page st) = Some image ->
  gw_predictDisease gw image crop = Fulfilled r ->
  pr_success r = true -> pr_disease r = Some d -> d <> "" ->
  gw_getExplanation gw crop d language = Fulfilled e ->
  er_success e = false ->
  let out := cycle gw st in
  explanation (page (final out)) = fallbackExplanation
  /\ calls (trace out) =
       [predictDisease image crop; getExplanation crop d language;
        generateVoice fallbackExplanation language]
  /\ (exists pending,
        In (Called (generateVoice fallbackExplanation language) pending)
           (trace out)
        /\ analysisState (page pending) = GeneratingVoice
        /\ explanation (page pending) = fallbackExplanation
        /\ error (page pending) = "")
  /\ (forall v, gw_generateVoice gw fallbackExplanation language = Fulfilled v ->
        analysisState (page (final out)) = Complete).
Proof.
  intros crop language Himg Hgw Hs Hd Hne He Hfail out.
  apply truthy_nonempty in Hne.
  assert (Htext : explTextOf e = fallbackExplanation).
  { unfold explTextOf. now rewrite Hfail. }
  destruct (cycle_reaches_voice gw st image r d e Himg Hgw Hs Hd Hne He)
    as (rest & Htrace & Hrest & Hexpl).
  rewrite Htext in Htrace, Hexpl. fold crop language in Htrace.
  subst out. split; [exact Hexpl |]. split; [| split].
  - rewrite Htrace. cbn. now rewrite Hrest.
  - eexists. rewrite Htrace. split; [right; right; left; reflexivity |].
    repeat split.
  - intros v Hv. rewrite <- Htext in Hv.
    rewrite (cycle_classified gw st image r d e v Himg Hgw Hs Hd Hne He Hv).
    reflexivity.
Qed.

Lemma explanation_failure_falls_back_witness :
  let out := cycle gw_explanation_down leaf_selected in
  explanation (page (final out)) = fallbackExplanation
  /\ calls (trace out) =
       [predictDisease leaf "Tomato";
        getExplanation "Tomato" "Early Blight" "English";
        generateVoice fallbackExplanation "English"]
  /\ analysisState (page (final out)) = Complete.
Proof.
  destruct (explanation_failure_falls_back
              gw_explanation_down leaf_selected leaf early_blight
              "Early Blight" explanation_down)
    as (Hexpl & Hcalls & _ & Hdone);
    [reflexivity | reflexivity | reflexivity | reflexivity | discriminate
    | reflexivity | reflexivity | ].
  intros out. split; [exact Hexpl | split; [exact Hcalls |]].
  apply (Hdone voice_ready). reflexivity.
Defined.

(** ** Voice failure (C3) *)

(** C3.  In every analysis cycle whose classification and explanation
    succeed and whose voice call returns [success = false] or no audio
    payload, the final AnalysisState is [complete] and the stored audio
    payload is empty; the page then shows no audio player and offers
    the local speech control. *)
Theorem voice_failure_completes_without_audio
  (gw : Gateway) (st : Store) (image : File) (r : PredictionResult)
  (d : string) (e : ExplanationResult) (text : string) (v : VoiceResult) :
  let crop := selectedCrop (page st) in
  let language := selectedLanguage (page st) in
  selectedImage (page st) = Some image ->
  gw_predictDisease gw image crop = Fulfilled r ->
  pr_success r = true -> pr_disease r = Some d -> d <> "" ->
  gw_getExplanation gw crop d language = Fulfilled e ->
  er_success e = true -> er_explanation e = Some text -> text <> "" ->
  gw_generateVoice gw text language = Fulfilled v ->
  vr_success v = false \/ truthy_opt (vr_audioBase64 v) = false ->
  let s' := page (final (cycle gw st)) in
  analysisState s' = Complete
  /\ audioBase64 s' = ""
  /\ explanation s' = text
  /\ rendersAudioPlayer s' = false
  /\ rendersSpeechFallback s' = true.
Proof.
  intros crop language Himg Hgw Hs Hd Hne He Hes Het Htne Hv Hfail s'.
  apply truthy_nonempty in Hne. apply truthy_nonempty in Htne.
  assert (Htext : explTextOf e = text).
  { unfold explTextOf. rewrite Hes, Het. cbn. now rewrite Htne. }
  assert (Haudio : audioOf v = "").
  { unfold audioOf. destruct Hfail as [-> | ->];
      [reflexivity | now rewrite andb_false_r]. }
  rewrite <- Htext in Hv. subst s'.
  rewrite (cycle_classified gw st image r d e v Himg Hgw Hs Hd Hne He Hv).
  rewrite Haudio, Htext. unfold rendersAudioPlayer, rendersSpeechFallback.
  cbn. rewrite Htne. repeat split.
Qed.

Lemma voice_failure_completes_without_audio_witness :
  let s' := page (final (cycle gw_voice_down leaf_selected)) in
  analysisState s' = Complete
  /\ audioBase64 s' = ""
  /\ explanation s' = "Early blight is caused by..."
  /\ rendersAudioPlayer s' = false
  /\ rendersSpeechFallback s' = true.
Proof.
  apply (voice_failure_completes_without_audio
           gw_voice_down leaf_selected leaf early_blight "Early Blight"
           blight_explained "Early blight is caused by..." voice_down);
    first [reflexivity | discriminate | left; reflexivity].
Defined.

(** ** Results of an earlier cycle (C4) *)

(** A failed classification leaves the result cells as the cycle found
    them: [handleAnalyze] resets the error message and the stage before
    the call, and writes only the error message and the stage after
    it. *)
Lemma failed_cycle_keeps_results
  (gw : Gateway) (st : Store) (image : File) (r : PredictionResult) :
  selectedImage (page st) = Some image ->
  gw_predictDisease gw image (selectedCrop (page st)) = Fulfilled r ->
  pr_success r && truthy_opt (pr_disease r) = false ->
  let s' := page (final (cycle gw st)) in
  disease s' = disease (page st)
  /\ confidence s' = confidence (page st)
  /\ explanation s' = explanation (page st)
  /\ audioBase64 s' = audioBase64 (page st).
Proof.
  intros Himg Hgw Hr s'. subst s'.
  rewrite (cycle_classification_failed gw st image r Himg Hgw Hr).
  repeat split.
Qed.

(** C4.  The claim fails on the code: after a cycle on [leaf] that
    completed with "Early Blight", a second Analyze click whose
    classification fails ends in [error] with the first cycle's disease
    label, explanation and audio payload still stored, still stored
    while the second classification call is pending, and still rendered
    next to the error panel. *)
Theorem stale_results_survive_failed_cycle :
  let first := cycle gw_ok leaf_selected in
  let second := cycle gw_model_unavailable (final first) in
  let s' := page (final second) in
  analysisState (page (final first)) = Complete
  /\ analysisState s' = Error
  /\ error s' = "model unavailable"
  /\ disease s' = "Early Blight"
  /\ explanation s' = "Early blight is caused by..."
  /\ audioBase64 s' = "<b64>"
  /\ (exists pending,
        trace second
          = [Called (predictDisease leaf "Tomato") pending;
             Out (console_error "Analysis error:"
                    (ErrorObj "model unavailable"))]
        /\ disease (page pending) = "Early Blight"
        /\ explanation (page pending) = "Early blight is caused by..."
        /\ audioBase64 (page pending) = "<b64>")
  /\ rendersErrorPanel s' = true
  /\ rendersDiseaseCard s' = true
  /\ rendersExplanation s' = true
  /\ rendersAudioPlayer s' = true.
Proof.
  vm_compute. repeat (split; [reflexivity |]).
  split; [| repeat split].
  eexists. repeat split.
Qed.

(** ** Analysis without an image (C6) *)

(** C6.  Invoked while no image is selected, [handleAnalyze] sets the
    validation message, makes no remote call and leaves AnalysisState
    as it is, so [idle] stays [idle]; and the synchronous start of
    [handleAnalyze] moves the page to [predicting] exactly when an image
    is selected, which is then the only way from [idle] to
    [predicting]. *)
Theorem analyze_without_image_is_rejected (gw : Gateway) (st : Store) :
  (selectedImage (page st) = None ->
     let out := cycle gw st in
     error (page (final out)) = "Please upload an image first"
     /\ trace out = []
     /\ analysisState (page (final out)) = analysisState (page st)
     /\ (analysisState (page st) = Idle ->
         analysisState (page (final out)) = Idle))
  /\ let started := advance (handleAnalyze (page st)) st in
     (is_Some (selectedImage (page st)) ->
        analysisState (page (reached started)) = Predicting
        /\ exists image k,
             parked started
             = Some (Susp (predictDisease image (selectedCrop (page st))) k))
     /\ (analysisState (page st) = Idle ->
         analysisState (page (reached started)) = Predicting ->
         is_Some (selectedImage (page st))).
Proof.
  split.
  - intros Himg out. subst out. rewrite (cycle_no_image gw st Himg). cbn.
    repeat split. intros H; exact H.
  - cbv zeta. unfold handleAnalyze.
    destruct (selectedImage (page st)) as [image |] eqn:Himg.
    + split.
      * intros _. cbn. split; [reflexivity | eauto].
      * intros _ _. eauto.
    + split.
      * intros [x Hx]. discriminate.
      * cbn. intros Hidle Hpred. rewrite Hidle in Hpred. discriminate.
Qed.

Lemma analyze_without_image_is_rejected_witness :
  let out := cycle gw_ok initialStore in
  error (page (final out)) = "Please upload an image first"
  /\ trace out = []
  /\ analysisState (page (final out)) = Idle.
Proof.
  destruct (analyze_without_image_is_rejected gw_ok initialStore)
    as [Hnone _].
  destruct (Hnone eq_refl) as (Herr & Htrace & _ & Hidle).
  intros out. split; [exact Herr | split; [exact Htrace |]].
  apply Hidle. reflexivity.
Defined.

(** ** Media Intake (C5) *)

Lemma acceptable_dec (file : File) :
  {acceptable file} + {~ acceptable file}.
Proof.
  unfold acceptable.
  destruct (String.prefix "image/" (file_type file)).
  - destruct (Z_le_gt_dec (file_size file) 10485760) as [Hle | Hgt].
    + left. split; [reflexivity | exact Hle].
    + right. intros [_ Hle]. lia.
  - right. intros [Hp _]. discriminate.
Qed.

Lemma selectFile_accepts (gw : Gateway) (st : Store) (file : File) :
  acceptable file ->
  run gw (selectFile file) st
  = observe (Out (readAsDataURL file)) (run gw (handleImageSelect file) st).
Proof.
  intros [Hp Hsz]. unfold selectFile, handleFile, maxFileSize. rewrite Hp.
  cbn [negb]. destruct (Z.ltb_spec (10 * 1024 * 1024) (file_size file)) as [Hlt | _];
    [lia | reflexivity].
Qed.

Lemma selectFile_rejects (gw : Gateway) (st : Store) (file : File) :
  ~ acceptable file ->
  exists msg,
    run gw (selectFile file) st
    = {| final := st; trace := [Out (alert msg)]; result := Fulfilled tt |}.
Proof.
  intros Hbad. unfold selectFile, handleFile, maxFileSize.
  destruct (String.prefix "image/" (file_type file)) eqn:Hp; cbn [negb].
  - destruct (Z.ltb_spec (10 * 1024 * 1024) (file_size file)) as [Hlt | Hle].
    + eexists. reflexivity.
    + exfalso. apply Hbad. split; [exact Hp | lia].
  - eexists. reflexivity.
Qed.

(** C5.  Media Intake accepts a file exactly when its MIME type starts
    with ["image/"] and its size is at most 10,485,760 bytes.  An
    accepted file gets a preview read started and becomes the selected
    image of an [idle] page; a rejected one gets an alert and nothing
    else: the store is unchanged (no selected image is forwarded,
    AnalysisState stays as it was, so [idle] stays [idle]) and no
    preview read is started. *)
Theorem media_intake_validates (gw : Gateway) (st : Store) (file : File) :
  let out := run gw (selectFile file) st in
  (acceptable file <-> In (Out (readAsDataURL file)) (trace out))
  /\ (acceptable file ->
        trace out = [Out (readAsDataURL file)]
        /\ selectedImage (page (final out)) = Some file
        /\ analysisState (page (final out)) = Idle)
  /\ (~ acceptable file ->
        (exists msg, trace out = [Out (alert msg)])
        /\ final out = st
        /\ (analysisState (page st) = Idle ->
            analysisState (page (final out)) = Idle)).
Proof.
  intros out. subst out. split; [| split].
  - split.
    + intros Hok. rewrite (selectFile_accepts gw st file Hok). left. reflexivity.
    + intros Hin. destruct (acceptable_dec file) as [Hok | Hbad]; [exact Hok |].
      destruct (selectFile_rejects gw st file Hbad) as [msg Hrun].
      rewrite Hrun in Hin. cbn in Hin. destruct Hin as [Heq | []]. discriminate.
  - intros Hok. rewrite (selectFile_accepts gw st file Hok). repeat split.
  - intros Hbad. destruct (selectFile_rejects gw st file Hbad) as [msg Hrun].
    rewrite Hrun. cbn. split; [eauto | split; [reflexivity | tauto]].
Qed.

Lemma media_intake_validates_witness :
  let oversized := {| file_name := "field.png"; file_type := "image/png";
                      file_size := 10485761 |} in
  let out := run gw_ok (selectFile oversized) initialStore in
  ~ acceptable oversized
  /\ final out = initialStore
  /\ analysisState (page (final out)) = Idle.
Proof.
  intros oversized out.
  assert (Hbad : ~ acceptable oversized).
  { intros [_ Hsz]. cbn in Hsz. lia. }
  destruct (media_intake_validates gw_ok initialStore oversized)
    as (_ & _ & Hreject).
  destruct (Hreject Hbad) as (_ & Hsame & Hidle).
  split; [exact Hbad | split; [exact Hsame | apply Hidle; reflexivity]].
Defined.

(** The same rejection seen from the event loop: nothing of the session
    changes but the alert shown. *)
Lemma rejected_file_changes_nothing (ss : Session) (file : File) :
  ~ acceptable file ->
  rendersPreview (upload (store ss)) = false ->
  exists msg,
    step ss (InputChanged [file])
    = Some {| store := store ss; inflight := inflight ss;
              readers := readers ss;
              outputs := outputs ss ++ [alert msg] |}.
Proof.
  intros Hbad Hnp. unfold step. rewrite Hnp.
  unfold dispatch, handleChange, handleFile, maxFileSize.
  destruct (String.prefix "image/" (file_type file)) eqn:Hp; cbn [negb].
  - destruct (Z.ltb_spec (10 * 1024 * 1024) (file_size file)) as [Hlt | Hle].
    + eexists. cbn. now rewrite !app_nil_r.
    + exfalso. apply Hbad. split; [exact Hp | lia].
  - eexists. cbn. now rewrite !app_nil_r.
Qed.

(** ** Result presentation (C8) *)

Lemma or_else_truthy (o : option string) (d : string) :
  truthy d = true -> truthy (or_else o d) = true.
Proof.
  intros Hd. destruct o as [x |]; cbn; [| exact Hd].
  destruct (truthy x) eqn:Hx; [exact Hx | exact Hd].
Qed.

(** ** The local speech fallback (C9) *)

Lemma langMap_other (language : string) :
  language <> "English" -> language <> "Hindi" -> langMap !! language = None.
Proof.
  intros He Hh. unfold langMap.
  rewrite lookup_insert_ne by congruence.
  now rewrite lookup_singleton_ne by congruence.
Qed.

Lemma langMap_own (language : string) :
  langMap !! language = None <-> language <> "English" /\ language <> "Hindi".
Proof.
  split.
  - intros Hnone. split; intros ->; vm_compute in Hnone; discriminate.
  - intros [He Hh]. now apply langMap_other.
Qed.

(** C9.  The language-to-locale mapping of the local speech fallback
    has exactly the two entries English -> en-US and Hindi -> hi-IN.
    For each of the six labels of [LANGUAGES] the Listen control speaks
    the explanation with the locale the lookup gives: en-US for
    English, hi-IN for Hindi, and the default en-US for Telugu, Tamil,
    Bengali and Marathi, which are all the other supported labels.  The
    default is what any key gets that is neither in the mapping nor a
    property name of [Object.prototype]; such a name yields the
    inherited value instead. *)
Theorem speech_fallback_locales :
  map_to_list langMap = [("English", "en-US"); ("Hindi", "hi-IN")]
  /\ size langMap = 2%nat
  /\ (forall language,
        langMap !! language = None
        <-> language <> "English" /\ language <> "Hindi")
  /\ (let spoken := [("English", "en-US"); ("Hindi", "hi-IN");
                     ("Telugu", "en-US"); ("Tamil", "en-US");
                     ("Bengali", "en-US"); ("Marathi", "en-US")] in
      map fst spoken = map lang_name LANGUAGES
      /\ Forall (fun entry =>
                   utteranceLang (fst entry) = JsString (snd entry)
                   /\ forall s, selectedLanguage s = fst entry ->
                        handleListen s
                        = emit (speak (explanation s) (JsString (snd entry))))
                spoken)
  /\ filter (fun l => l <> "English" /\ l <> "Hindi") (map lang_name LANGUAGES)
       = ["Telugu"; "Tamil"; "Bengali"; "Marathi"]
  /\ (forall language,
        langMap !! language = None ->
        language ∉ objectPrototypeKeys ->
        utteranceLang language = JsString "en-US")
  /\ (forall key,
        key ∈ objectPrototypeKeys -> utteranceLang key = JsInherited key).
Proof.
  split; [vm_compute; reflexivity |].
  split; [vm_compute; reflexivity |].
  split; [exact langMap_own |].
  split; [| split; [vm_compute; reflexivity | split]].
  - cbv zeta. split; [reflexivity |].
    repeat constructor;
      try (intros s Hs; unfold handleListen; rewrite Hs);
      vm_compute; reflexivity.
  - intros language Hnone Hproto. unfold utteranceLang, get_property.
    rewrite Hnone. now rewrite (bool_decide_eq_false_2 _ Hproto).
  - intros key Hkey. unfold utteranceLang, get_property.
    assert (Hnone : langMap !! key = None).
    { apply langMap_own. split; intros ->;
        apply list_elem_of_In in Hkey; cbn in Hkey;
        repeat (destruct Hkey as [Hkey | Hkey]; try discriminate); exact Hkey. }
    rewrite Hnone. now rewrite (bool_decide_eq_true_2 _ Hkey).
Qed.

Lemma speech_fallback_locales_witness :
  langMap !! "Telugu" = None
  /\ utteranceLang "Telugu" = JsString "en-US"
  /\ utteranceLang "constructor" = JsInherited "constructor".
Proof.
  destruct speech_fallback_locales as (_ & _ & Hown & _ & _ & Hdefault & Hproto).
  assert (Hnone : langMap !! "Telugu" = None).
  { apply Hown. split; discriminate. }
  split; [exact Hnone | split].
  - apply (Hdefault "Telugu" Hnone). intros Hin.
    apply list_elem_of_In in Hin. cbn in Hin.
    repeat (destruct Hin as [Hin | Hin]; try discriminate). exact Hin.
  - apply Hproto. apply list_elem_of_In. cbn. tauto.
Defined.

(** ** Selecting and clearing the image (C10) *)

(** C10.  Selecting an image, like clearing it, resets AnalysisState to
    [idle] and empties the disease label, the explanation, the audio
    payload and the error message, whatever the page held before; none
    of the result blocks is rendered afterwards and the placeholder is
    back. *)
Theorem selecting_image_resets_results
  (gw : Gateway) (st : Store) (file : File) :
  let cleared (s' : PageState) :=
    analysisState s' = Idle /\ disease s' = "" /\ explanation s' = ""
    /\ audioBase64 s' = "" /\ error s' = ""
    /\ rendersErrorPanel s' = false /\ rendersDiseaseCard s' = false
    /\ rendersExplanation s' = false /\ rendersAudioPlayer s' = false
    /\ rendersSpeechFallback s' = false /\ rendersIdlePlaceholder s' = true in
  let selected := run gw (handleImageSelect file) st in
  let removed := run gw handleClearImage st in
  (selectedImage (page (final selected)) = Some file
   /\ cleared (page (final selected)) /\ trace selected = [])
  /\ (selectedImage (page (final removed)) = None
      /\ cleared (page (final removed)) /\ trace removed = []).
Proof.
  cbv zeta. cbn. repeat split.
Qed.

(** ** The Analyze button and cycles in flight (C7) *)

Lemma isLoading_spec (a : AnalysisState) :
  isLoading a = true <-> a = Predicting \/ a = Explaining \/ a = GeneratingVoice.
Proof.
  destruct a; vm_compute; split; intros H; try discriminate; try tauto;
    repeat (destruct H as [H | H]; try discriminate).
Qed.

Lemma analyzeDisabled_spec (s : PageState) :
  analyzeDisabled s = true
  <-> (analysisState s = Predicting \/ analysisState s = Explaining
       \/ analysisState s = GeneratingVoice)
      \/ selectedImage s = None.
Proof.
  unfold analyzeDisabled. rewrite orb_true_iff, isLoading_spec.
  rewrite negb_true_iff, bool_decide_eq_false, <- eq_None_not_Some. tauto.
Qed.

Lemma stage_after_spec (u : Setter) (st : Store) :
  analysisState (page (apply_setter u st))
  = stage_after u (analysisState (page st)).
Proof. destruct u; reflexivity. Qed.

Lemma advance_keeps_stage (m : Async unit) :
  forall st,
    keeps_stage (analysisState (page st)) m ->
    let p := advance m st in
    let a' := analysisState (page (reached p)) in
    match parked p with
    | None => isLoading a' = false
    | Some (Susp r k) => isLoading a' = true /\ forall o, keeps_stage a' (k o)
    end.
Proof.
  induction m as [x | e | u k IH | o k IH | r k IH]; intros st H; cbn in *.
  - exact H.
  - exact H.
  - apply IH. now rewrite stage_after_spec.
  - apply IH. exact H.
  - exact H.
Qed.

Lemma advance_inert (m : Async unit) :
  inert m = true ->
  forall st,
    parked (advance m st) = None
    /\ analysisState (page (reached (advance m st))) = analysisState (page st).
Proof.
  induction m as [x | e | u k IH | o k IH | r k IH]; intros Hm st; cbn in *.
  - split; reflexivity.
  - split; reflexivity.
  - assert (Hk : inert k = true) by (destruct u; congruence).
    destruct (IH Hk (apply_setter u st)) as [Hp Ha]. split; [exact Hp |].
    rewrite Ha, stage_after_spec. destruct u; try reflexivity. discriminate.
  - apply IH. exact Hm.
  - discriminate.
Qed.

Lemma handleAnalyze_keeps_stage (s : PageState) (a : AnalysisState) :
  (selectedImage s = None -> isLoading a = false) ->
  keeps_stage a (handleAnalyze s).
Proof.
  intros Hnone. unfold handleAnalyze.
  destruct (selectedImage s) as [image |]; [| cbn; auto].
  cbn. split; [reflexivity |]. intros [r | e]; cbn; [| reflexivity].
  destruct (negb (pr_success r) || negb (truthy_opt (pr_disease r)));
    cbn; [reflexivity |].
  split; [reflexivity |]. intros [x | e]; cbn; [| reflexivity].
  split; [reflexivity |]. intros [v | e]; cbn; [| reflexivity].
  destruct (vr_success v && truthy_opt (vr_audioBase64 v)); reflexivity.
Qed.

Lemma selectFile_keeps_stage (file : File) (a : AnalysisState) :
  isLoading a = false -> keeps_stage a (handleFile handleImageSelect file).
Proof.
  intros Ha. unfold handleFile.
  destruct (negb (String.prefix "image/" (file_type file))); [exact Ha |].
  destruct (maxFileSize <? file_size file)%Z; [exact Ha | reflexivity].
Qed.

Lemma handleDrag_inert (eventType : string) : inert (handleDrag eventType) = true.
Proof.
  unfold handleDrag.
  destruct (bool_decide (eventType = "dragenter")
            || bool_decide (eventType = "dragover")); [reflexivity |].
  destruct (bool_decide (eventType = "dragleave")); reflexivity.
Qed.

Lemma dispatch_inert (m : Async unit) (ss : Session) :
  inert m = true -> in_step ss -> in_step (dispatch m ss).
Proof.
  intros Hm Hss. destruct (advance_inert m Hm (store ss)) as [Hp Ha].
  unfold in_step, dispatch in *. cbn. rewrite Hp, Ha. cbn.
  rewrite app_nil_r. exact Hss.
Qed.

Lemma dispatch_keeps_stage (m : Async unit) (ss : Session) :
  inflight ss = [] ->
  keeps_stage (analysisState (page (store ss))) m ->
  in_step (dispatch m ss).
Proof.
  intros Hnil Hm. pose proof (advance_keeps_stage m (store ss) Hm) as H.
  unfold in_step, dispatch. cbn in *. rewrite Hnil. cbn.
  destruct (parked (advance m (store ss))) as [[r k] |]; exact H.
Qed.

Lemma in_step_idle (ss : Session) :
  in_step ss -> inflight ss = [] ->
  isLoading (analysisState (page (store ss))) = false.
Proof. unfold in_step. intros H Hnil. now rewrite Hnil in H. Qed.

Lemma in_step_busy (ss : Session) :
  in_step ss -> inflight ss <> [] ->
  isLoading (analysisState (page (store ss))) = true
  /\ exists r k, inflight ss = [Susp r k]
               /\ forall o, keeps_stage (analysisState (page (store ss))) (k o).
Proof.
  unfold in_step. intros H Hne.
  destruct (inflight ss) as [| [r k] [| sus rest]]; [congruence | | tauto].
  destruct H as [Hl Hk]. split; [exact Hl | eauto].
Qed.

Lemma resume_continues (r : Request) (k : Settled (Response r) -> Async unit)
  (rep : Reply) (m : Async unit) :
  resume (Susp r k) rep = Some m -> exists o, m = k o.
Proof.
  destruct r; destruct rep; cbn; intros H; try discriminate;
    injection H as <-; eauto.
Qed.

Lemma step_in_step (ss ss' : Session) (ev : Event) :
  in_step ss ->
  (touches_image ev = true -> inflight ss = []) ->
  step ss ev = Some ss' ->
  in_step ss'.
Proof.
  intros Hss Hcalm Hstep. destruct ev; cbn in Hstep.
  - destruct (bool_decide _); [| discriminate]. injection Hstep as <-.
    now apply dispatch_inert.
  - destruct (bool_decide _); [| discriminate]. injection Hstep as <-.
    now apply dispatch_inert.
  - destruct (rendersPreview _); [discriminate |]. injection Hstep as <-.
    apply dispatch_inert; [apply handleDrag_inert | exact Hss].
  - destruct (rendersPreview _); [discriminate |]. injection Hstep as <-.
    specialize (Hcalm eq_refl).
    apply dispatch_keeps_stage; [exact Hcalm |].
    pose proof (in_step_idle ss Hss Hcalm) as Hidle.
    destruct files as [| file rest]; cbn; [exact Hidle |].
    now apply selectFile_keeps_stage.
  - destruct (rendersPreview _); [discriminate |]. injection Hstep as <-.
    specialize (Hcalm eq_refl).
    apply dispatch_keeps_stage; [exact Hcalm |].
    pose proof (in_step_idle ss Hss Hcalm) as Hidle.
    destruct files as [| file rest]; cbn; [exact Hidle |].
    now apply selectFile_keeps_stage.
  - destruct (rendersPreview _); [| discriminate]. injection Hstep as <-.
    apply dispatch_keeps_stage; [exact (Hcalm eq_refl) | reflexivity].
  - destruct (analyzeDisabled (page (store ss))) eqn:Hgate; [discriminate |].
    injection Hstep as <-.
    unfold analyzeDisabled in Hgate. apply orb_false_iff in Hgate.
    destruct Hgate as [Himg Hload].
    assert (Hnil : inflight ss = []).
    { destruct (inflight ss) as [| sus rest] eqn:Hin; [reflexivity |].
      destruct (in_step_busy ss Hss) as [Hbusy _]; congruence. }
    apply dispatch_keeps_stage; [exact Hnil |].
    apply handleAnalyze_keeps_stage. intros _. exact Hload.
  - destruct (rendersSpeechFallback _); [| discriminate]. injection Hstep as <-.
    now apply dispatch_inert.
  - destruct (readers ss !! i); [| discriminate]. injection Hstep as <-.
    apply dispatch_inert; [reflexivity | exact Hss].
  - destruct (inflight ss !! i) as [sus |] eqn:Hi; [| discriminate].
    destruct (resume sus rep) as [m |] eqn:Hm; [| discriminate].
    injection Hstep as <-.
    assert (Hne : inflight ss <> []) by (intros E; rewrite E in Hi; discriminate).
    destruct (in_step_busy ss Hss Hne) as (_ & r & k & Hin & Hk).
    rewrite Hin in Hi. destruct i as [| i]; [| discriminate].
    injection Hi as <-. destruct (resume_continues r k rep m Hm) as [o ->].
    apply dispatch_keeps_stage; cbn; [now rewrite Hin | apply Hk].
Qed.

Lemma exec_in_step (evs : list Event) :
  forall ss ss',
    in_step ss -> undisturbed ss evs -> exec ss evs = Some ss' -> in_step ss'.
Proof.
  induction evs as [| ev evs IH]; intros ss ss' Hss Hcalm Hexec; cbn in *.
  - injection Hexec as <-. exact Hss.
  - destruct Hcalm as [Hev Hrest].
    destruct (step ss ev) as [ss1 |] eqn:Hstep; [| discriminate].
    apply (IH ss1 ss'); [| exact Hrest | exact Hexec].
    now apply (step_in_step ss ss1 ev).
Qed.

(** C7, as stated, fails: the user chooses an image, clicks Analyze,
    removes the image while the classification call is pending and
    chooses another one.  AnalysisState is [idle] again, the Analyze
    button is enabled although the first cycle is still waiting for its
    reply, and a click starts a second cycle next to it. *)
Lemma second_cycle_starts_while_first_in_flight :
  let waiting (evs : list Event) :=
    option_map pending_requests (exec initialSession evs) in
  let shown (evs : list Event) :=
    option_map (fun ss => (analysisState (page (store ss)),
                           analyzeDisabled (page (store ss))))
               (exec initialSession evs) in
  waiting reselect_during_call = Some [predictDisease leaf "Tomato"]
  /\ shown reselect_during_call = Some (Idle, false)
  /\ waiting (reselect_during_call ++ [ClickAnalyze])%list
     = Some [predictDisease leaf "Tomato"; predictDisease second_leaf "Tomato"].
Proof.
  vm_compute. repeat split.
Qed.

(** ** Replies that arrive after the image was changed *)

(** The reply of the first cycle is applied to the page of the second
    image: its disease label is shown for [second_leaf], and the first
    cycle goes on to ask for an explanation. *)
Lemma late_reply_lands_on_new_image :
  let evs := (reselect_during_call
              ++ [Settle 0 (predicted (Fulfilled early_blight))])%list in
  option_map (fun ss => (selectedImage (page (store ss)),
                         analysisState (page (store ss)),
                         disease (page (store ss)),
                         pending_requests ss))
             (exec initialSession evs)
  = Some (Some second_leaf, Explaining, "Early Blight",
          [getExplanation "Tomato" "Early Blight" "English"]).
Proof. vm_compute. reflexivity. Qed.


(** * Further properties *)

(** ** Stages of a cycle *)

Lemma handleAnalyze_staged (s : PageState) :
  is_Some (selectedImage s) -> staged None (handleAnalyze s).
Proof.
  intros [image Himg]. unfold handleAnalyze. rewrite Himg.
  cbn. split; [reflexivity |]. intros [r | e]; cbn; [| now right].
  destruct (negb (pr_success r) || negb (truthy_opt (pr_disease r)));
    cbn; [now right |].
  split; [reflexivity |]. intros [x | e]; cbn; [| now right].
  split; [reflexivity |]. intros [v | e]; cbn; [| now right].
  destruct (vr_success v && truthy_opt (vr_audioBase64 v)); cbn; now left.
Qed.

Lemma staged_update (u : Setter) (cur : option AnalysisState) (st : Store) :
  (forall a, cur = Some a -> analysisState (page st) = a) ->
  forall a,
    match u with setAnalysisState a' => Some a' | _ => cur end = Some a ->
    analysisState (page (apply_setter u st)) = a.
Proof.
  intros Hcur a Ha. rewrite stage_after_spec.
  destruct u; cbn; try (now apply Hcur). congruence.
Qed.

Lemma run_staged (gw : Gateway) (m : Async unit) :
  forall cur st,
    staged cur m ->
    (forall a, cur = Some a -> analysisState (page st) = a) ->
    let out := run gw m st in
    result out = Fulfilled tt
    /\ (analysisState (page (final out)) = Complete
        \/ analysisState (page (final out)) = Error)
    /\ forall r p, In (Called r p) (trace out) ->
                   analysisState (page p) = stage_of r.
Proof.
  induction m as [x | e | u k IH | o k IH | r k IH]; intros cur st Hm Hcur;
    cbn in *.
  - destruct x. split; [reflexivity |]. split; [| tauto].
    destruct Hm as [Hm | Hm]; [left | right]; now apply Hcur.
  - destruct Hm.
  - apply (IH _ _ Hm). now apply staged_update.
  - destruct (IH cur st Hm Hcur) as (Hres & Hfin & Hcalls).
    split; [exact Hres | split; [exact Hfin |]].
    intros r p [Hin | Hin]; [discriminate | now apply Hcalls].
  - destruct Hm as [Hstage Hk].
    destruct (IH (answer gw r) None st (Hk _)) as (Hres & Hfin & Hcalls);
      [discriminate |].
    split; [exact Hres | split; [exact Hfin |]].
    intros r' p [Hin | Hin]; [| now apply Hcalls].
    injection Hin as -> ->. now apply Hcur.
Qed.

Lemma advance_staged (m : Async unit) :
  forall cur st,
    staged cur m ->
    (forall a, cur = Some a -> analysisState (page st) = a) ->
    let p := advance m st in
    let a' := analysisState (page (reached p)) in
    match parked p with
    | None => a' = Complete \/ a' = Error
    | Some (Susp r k) => a' = stage_of r /\ forall o, staged None (k o)
    end.
Proof.
  induction m as [x | e | u k IH | o k IH | r k IH]; intros cur st Hm Hcur;
    cbn in *.
  - destruct Hm as [Hm | Hm]; [left | right]; now apply Hcur.
  - destruct Hm.
  - apply (IH _ _ Hm). now apply staged_update.
  - now apply (IH cur).
  - destruct Hm as [Hstage Hk]. split; [now apply Hcur | exact Hk].
Qed.

Lemma stage_is_loading (r : Request) : isLoading (stage_of r) = true.
Proof. destruct r; reflexivity. Qed.

Lemma stage_label (r : Request) (s : PageState) :
  analysisState s = stage_of r ->
  analyzeDisabled s = true
  /\ analyzeButtonLabel s
     = match r with
       | predictDisease _ _ => "Analyzing crop image..."
       | getExplanation _ _ _ => "Getting expert explanation..."
       | generateVoice _ _ => "Generating voice guidance..."
       end.
Proof.
  intros H. unfold analyzeDisabled, analyzeButtonLabel. rewrite H.
  rewrite stage_is_loading, orb_true_r. split; [reflexivity |].
  destruct r; reflexivity.
Qed.

(** ** Handlers confined to some updates and calls *)

Section Confined.

Variable ok_store : Store -> Prop.
Variable ok_set : Setter -> Prop.
Variable ok_req : Request -> Prop.
Hypothesis ok_set_keeps :
  forall u st, ok_set u -> ok_store st -> ok_store (apply_setter u st).

Lemma confined_run {A : Type} (gw : Gateway) (m : Async A) :
  forall st,
    confined ok_set ok_req m -> ok_store st ->
    ok_store (final (run gw m st))
    /\ forall r p, In (Called r p) (trace (run gw m st)) ->
                  ok_req r /\ ok_store p.
Proof.
  induction m as [x | e | u k IH | o k IH | r k IH]; intros st Hm Hst;
    cbn in *.
  - tauto.
  - tauto.
  - destruct Hm as [Hu Hk]. apply IH; [exact Hk | now apply ok_set_keeps].
  - destruct (IH st Hm Hst) as [Hfin Hcalls]. split; [exact Hfin |].
    intros r p [Hin | Hin]; [discriminate | now apply Hcalls].
  - destruct Hm as [Hr Hk].
    destruct (IH (answer gw r) st (Hk _) Hst) as [Hfin Hcalls].
    split; [exact Hfin |].
    intros r' p [Hin | Hin]; [| now apply Hcalls].
    injection Hin as -> ->. tauto.
Qed.

Lemma confined_advance (m : Async unit) :
  forall st,
    confined ok_set ok_req m -> ok_store st ->
    ok_store (reached (advance m st))
    /\ match parked (advance m st) with
       | Some sus => parked_confined ok_set ok_req sus
       | None => True
       end.
Proof.
  induction m as [x | e | u k IH | o k IH | r k IH]; intros st Hm Hst;
    cbn in *.
  - tauto.
  - tauto.
  - destruct Hm as [Hu Hk]. apply IH; [exact Hk | now apply ok_set_keeps].
  - now apply IH.
  - tauto.
Qed.

Lemma confined_dispatch (m : Async unit) (ss : Session) :
  session_confined ok_store ok_set ok_req ss ->
  confined ok_set ok_req m ->
  session_confined ok_store ok_set ok_req (dispatch m ss).
Proof.
  intros [Hst Hin] Hm.
  destruct (confined_advance m (store ss) Hm Hst) as [Hreached Hparked].
  split; [exact Hreached |]. cbn. apply Forall_app. split; [exact Hin |].
  destruct (parked (advance m (store ss))) as [sus |]; cbn;
    [now repeat constructor | constructor].
Qed.

Lemma confined_settle (ss : Session) (i : nat) (sus : Suspended)
  (rep : Reply) (m : Async unit) :
  session_confined ok_store ok_set ok_req ss ->
  inflight ss !! i = Some sus ->
  resume sus rep = Some m ->
  session_confined ok_store ok_set ok_req
    (dispatch m {| store := store ss; inflight := delete i (inflight ss);
                   readers := readers ss; outputs := outputs ss |}).
Proof.
  intros [Hst Hin] Hi Hm. apply confined_dispatch.
  - split; [exact Hst |]. cbn. now apply Forall_delete.
  - pose proof (proj1 (Forall_lookup _ _) Hin i sus Hi) as Hsus.
    destruct sus as [r k]. destruct (resume_continues r k rep m Hm) as [o ->].
    apply Hsus.
Qed.

End Confined.

(** ** What [handleAnalyze] leaves alone *)

Lemma result_set_keeps_inputs (v : string * string * option File * UploadState)
  (u : Setter) (st : Store) :
  result_set u -> inputs_of st = v -> inputs_of (apply_setter u st) = v.
Proof. destruct u; cbn; intros Hu <-; try reflexivity; destruct Hu. Qed.

Lemma handleAnalyze_result_confined (s : PageState) :
  confined result_set (fun _ => True) (handleAnalyze s).
Proof.
  unfold handleAnalyze. destruct (selectedImage s) as [image |]; cbn; [| tauto].
  repeat split. intros [r | e]; cbn; [| tauto].
  destruct (negb (pr_success r) || negb (truthy_opt (pr_disease r)));
    cbn; [tauto |].
  repeat split. intros [x | e]; cbn; [| tauto].
  repeat split. intros [v | e]; cbn; [| tauto].
  destruct (vr_success v && truthy_opt (vr_audioBase64 v)); cbn; tauto.
Qed.

Lemma run_handleAnalyze_inputs (gw : Gateway) (s : PageState) (st : Store) :
  let out := run gw (handleAnalyze s) st in
  inputs_of (final out) = inputs_of st
  /\ forall r p, In (Called r p) (trace out) -> inputs_of p = inputs_of st.
Proof.
  destruct (confined_run (fun st' => inputs_of st' = inputs_of st)
              result_set (fun _ => True)
              (result_set_keeps_inputs (inputs_of st))
              gw (handleAnalyze s) st
              (handleAnalyze_result_confined s) eq_refl) as [Hfin Hcalls].
  split; [exact Hfin |]. intros r p Hin. now apply (Hcalls r p).
Qed.

(** X7.  Whatever the gateway answers, rejected promises included,
    [handleAnalyze] never changes the selected crop, the selected
    language, the selected image or the upload component's state:
    they are the same at the end of the run, and at every remote call,
    as at its start.  This holds for the closure of any render [s] run
    on any live store [st]. *)
Theorem handleAnalyze_leaves_inputs_alone
  (gw : Gateway) (s : PageState) (st : Store) :
  let out := run gw (handleAnalyze s) st in
  (selectedCrop (page (final out)) = selectedCrop (page st)
   /\ selectedLanguage (page (final out)) = selectedLanguage (page st)
   /\ selectedImage (page (final out)) = selectedImage (page st)
   /\ upload (final out) = upload st)
  /\ forall r p, In (Called r p) (trace out) ->
       selectedCrop (page p) = selectedCrop (page st)
       /\ selectedLanguage (page p) = selectedLanguage (page st)
       /\ selectedImage (page p) = selectedImage (page st)
       /\ upload p = upload st.
Proof.
  intros out. destruct (run_handleAnalyze_inputs gw s st) as [Hfin Hcalls].
  fold out in Hfin, Hcalls. unfold inputs_of in *. split.
  - injection Hfin as H1 H2 H3 H4. tauto.
  - intros r p Hin. specialize (Hcalls r p Hin).
    injection Hcalls as H1 H2 H3 H4. tauto.
Qed.

(** X1.  A cycle started with an image selected always settles,
    whatever the gateway answers: [handleAnalyze] returns normally (no
    exception escapes it), the final AnalysisState is [complete] or
    [error] and the Analyze button is enabled again.  While each remote
    call is pending the page shows the stage of that call, the button
    is disabled and carries that stage's progress text; the default
    text of [getLoadingMessage] is never the one shown. *)
Theorem cycle_always_settles (gw : Gateway) (st : Store) :
  is_Some (selectedImage (page st)) ->
  let out := cycle gw st in
  result out = Fulfilled tt
  /\ (analysisState (page (final out)) = Complete
      \/ analysisState (page (final out)) = Error)
  /\ analyzeDisabled (page (final out)) = false
  /\ analyzeButtonLabel (page (final out)) = "Analyze Crop"
  /\ forall r p, In (Called r p) (trace out) ->
       analysisState (page p) = stage_of r
       /\ analyzeDisabled (page p) = true
       /\ analyzeButtonLabel (page p)
          = match r with
            | predictDisease _ _ => "Analyzing crop image..."
            | getExplanation _ _ _ => "Getting expert explanation..."
            | generateVoice _ _ => "Generating voice guidance..."
            end.
Proof.
  intros Himg out.
  destruct (run_staged gw (handleAnalyze (page st)) None st
              (handleAnalyze_staged (page st) Himg))
    as (Hres & Hfin & Hcalls); [discriminate |].
  destruct (run_handleAnalyze_inputs gw (page st) st) as [Hin _].
  fold (cycle gw st) in Hres, Hfin, Hcalls, Hin. fold out in Hres, Hfin, Hcalls, Hin.
  assert (Hrest : isLoading (analysisState (page (final out))) = false).
  { destruct Hfin as [-> | ->]; reflexivity. }
  split; [exact Hres | split; [exact Hfin |]].
  split; [| split].
  - unfold analyzeDisabled. rewrite Hrest.
    unfold inputs_of in Hin. injection Hin as _ _ Himg' _. rewrite Himg'.
    now rewrite (bool_decide_eq_true_2 _ Himg).
  - unfold analyzeButtonLabel. now rewrite Hrest.
  - intros r p Hp. pose proof (Hcalls r p Hp) as Hstage.
    split; [exact Hstage | now apply stage_label].
Qed.

Lemma cycle_always_settles_witness :
  let out := cycle gw_voice_down leaf_selected in
  result out = Fulfilled tt
  /\ (analysisState (page (final out)) = Complete
      \/ analysisState (page (final out)) = Error)
  /\ analyzeDisabled (page (final out)) = false.
Proof.
  destruct (cycle_always_settles gw_voice_down leaf_selected)
    as (Hres & Hfin & Hgate & _); [now exists leaf |].
  intros out. split; [exact Hres | split; [exact Hfin | exact Hgate]].
Defined.

(** ** Rejected promises and the order of the calls *)

Lemma explTextOf_truthy (e : ExplanationResult) : truthy (explTextOf e) = true.
Proof.
  unfold explTextOf. destruct (er_success e); cbn; [| reflexivity].
  destruct (er_explanation e) as [t |]; cbn; [| reflexivity].
  destruct (truthy t) eqn:Ht; [exact Ht | reflexivity].
Qed.

Lemma cycle_classification_rejected
  (gw : Gateway) (st : Store) (image : File) (err : Thrown) :
  selectedImage (page st) = Some image ->
  gw_predictDisease gw image (selectedCrop (page st)) = Rejected err ->
  cycle gw st =
    {| final := st_failed (thrown_message err) (st_predicting st);
       trace := [Called (predictDisease image (selectedCrop (page st)))
                        (st_predicting st);
                 Out (console_error "Analysis error:" err)];
       result := Fulfilled tt |}.
Proof.
  intros Himg Hgw. unfold cycle, handleAnalyze. rewrite Himg.
  cbn. rewrite Hgw. reflexivity.
Qed.

Lemma cycle_explanation_rejected
  (gw : Gateway) (st : Store) (image : File) (r : PredictionResult)
  (d : string) (err : Thrown) :
  selectedImage (page st) = Some image ->
  gw_predictDisease gw image (selectedCrop (page st)) = Fulfilled r ->
  pr_success r = true -> pr_disease r = Some d -> truthy d = true ->
  gw_getExplanation gw (selectedCrop (page st)) d
                    (selectedLanguage (page st)) = Rejected err ->
  cycle gw st =
    {| final := st_failed (thrown_message err)
                          (st_explaining d (pr_confidence r) st);
       trace := [Called (predictDisease image (selectedCrop (page st)))
                        (st_predicting st);
                 Called (getExplanation (selectedCrop (page st)) d
                                        (selectedLanguage (page st)))
                        (st_explaining d (pr_confidence r) st);
                 Out (console_error "Analysis error:" err)];
       result := Fulfilled tt |}.
Proof.
  intros Himg Hgw Hs Hd Ht He. unfold cycle, handleAnalyze. rewrite Himg.
  cbn. rewrite Hgw. cbn. rewrite Hs, Hd. cbn. rewrite Ht. cbn.
  rewrite He. reflexivity.
Qed.

Lemma cycle_voice_rejected
  (gw : Gateway) (st : Store) (image : File) (r : PredictionResult)
  (d : string) (e : ExplanationResult) (err : Thrown) :
  selectedImage (page st) = Some image ->
  gw_predictDisease gw image (selectedCrop (page st)) = Fulfilled r ->
  pr_success r = true -> pr_disease r = Some d -> truthy d = true ->
  gw_getExplanation gw (selectedCrop (page st)) d
                    (selectedLanguage (page st)) = Fulfilled e ->
  gw_generateVoice gw (explTextOf e) (selectedLanguage (page st))
    = Rejected err ->
  cycle gw st =
    {| final := st_failed (thrown_message err)
                          (st_voice d (pr_confidence r) (explTextOf e) st);
       trace := [Called (predictDisease image (selectedCrop (page st)))
                        (st_predicting st);
                 Called (getExplanation (selectedCrop (page st)) d
                                        (selectedLanguage (page st)))
                        (st_explaining d (pr_confidence r) st);
                 Called (generateVoice (explTextOf e)
                                       (selectedLanguage (page st)))
                        (st_voice d (pr_confidence r) (explTextOf e) st);
                 Out (console_error "Analysis error:" err)];
       result := Fulfilled tt |}.
Proof.
  intros Himg Hgw Hs Hd Ht He Hv. unfold cycle, handleAnalyze. rewrite Himg.
  cbn. rewrite Hgw. cbn. rewrite Hs, Hd. cbn. rewrite Ht. cbn.
  rewrite He. cbn. fold (explTextOf e). rewrite Hv. reflexivity.
Qed.

(** X2.  Whatever the gateway answers, a cycle makes at most three
    calls, always in the order classification, explanation, voice, and
    each call is fed by the one before it: the classification call
    carries the selected image and crop; the explanation call carries
    the same crop, the selected language and a non-empty disease label,
    which is the one the page ends with; the voice call carries the same
    language and a non-empty text, which is the explanation the page
    ends with.  A cycle that stops before the voice call ends in
    [error]; only a page without an image makes no call at all. *)
Theorem cycle_calls_in_order (gw : Gateway) (st : Store) :
  let out := cycle gw st in
  let s' := page (final out) in
  match calls (trace out) with
  | [] => selectedImage (page st) = None
  | predictDisease image crop :: later =>
      selectedImage (page st) = Some image
      /\ crop = selectedCrop (page st)
      /\ match later with
         | [] => analysisState s' = Error
         | getExplanation crop' d language :: last =>
             crop' = crop /\ language = selectedLanguage (page st)
             /\ d <> "" /\ disease s' = d
             /\ match last with
                | [] => analysisState s' = Error
                | [generateVoice text language'] =>
                    language' = language /\ text <> ""
                    /\ explanation s' = text
                | _ => False
                end
         | _ => False
         end
  | _ => False
  end.
Proof.
  cbv zeta. unfold cycle, handleAnalyze.
  destruct (selectedImage (page st)) as [image |]; [| reflexivity].
  cbn. destruct (gw_predictDisease gw image (selectedCrop (page st)))
    as [r | err]; cbn; [| tauto].
  destruct (pr_success r); cbn; [| tauto].
  destruct (pr_disease r) as [d |]; cbn; [| tauto].
  destruct (truthy d) eqn:Hd; cbn; [| tauto].
  apply truthy_nonempty in Hd.
  destruct (gw_getExplanation gw (selectedCrop (page st)) d
              (selectedLanguage (page st))) as [e | err]; cbn; [| tauto].
  fold (explTextOf e).
  pose proof (explTextOf_truthy e) as Ht. apply truthy_nonempty in Ht.
  destruct (gw_generateVoice gw (explTextOf e) (selectedLanguage (page st)))
    as [v | err]; cbn.
  - destruct (vr_success v && truthy_opt (vr_audioBase64 v)); cbn; tauto.
  - tauto.
Qed.

(** X3.  When the classification promise is rejected instead of
    returning a result, the cycle ends in [error] after that single
    call: the message is the [Error]'s message, or "An error occurred
    during analysis" when the thrown value is not an [Error]; the
    rejection is logged, and the result cells are left as they were. *)
Theorem rejected_classification_is_reported
  (gw : Gateway) (st : Store) (image : File) (err : Thrown) :
  selectedImage (page st) = Some image ->
  gw_predictDisease gw image (selectedCrop (page st)) = Rejected err ->
  let out := cycle gw st in
  let s' := page (final out) in
  analysisState s' = Error
  /\ (forall m, err = ErrorObj m -> error s' = m)
  /\ (err = OtherValue -> error s' = "An error occurred during analysis")
  /\ trace out
     = [Called (predictDisease image (selectedCrop (page st)))
               (st_predicting st);
        Out (console_error "Analysis error:" err)]
  /\ disease s' = disease (page st)
  /\ explanation s' = explanation (page st)
  /\ audioBase64 s' = audioBase64 (page st).
Proof.
  intros Himg Hgw out s'. subst s' out.
  rewrite (cycle_classification_rejected gw st image err Himg Hgw).
  cbn. repeat split; intros; subst; reflexivity.
Qed.

Lemma rejected_classification_is_reported_witness :
  let gw := {| gw_predictDisease := fun _ _ => Rejected (ErrorObj "Failed to fetch");
               gw_getExplanation := gw_getExplanation gw_ok;
               gw_generateVoice := gw_generateVoice gw_ok |} in
  let s' := page (final (cycle gw leaf_selected)) in
  analysisState s' = Error /\ error s' = "Failed to fetch".
Proof.
  intros gw.
  destruct (rejected_classification_is_reported gw leaf_selected leaf
              (ErrorObj "Failed to fetch"))
    as (Hstate & Hmsg & _); [reflexivity | reflexivity |].
  intros s'. split; [exact Hstate | now apply Hmsg].
Defined.

(** X4.  Unlike a [success = false] result, a rejected explanation or
    voice promise is fatal although the classification succeeded: the
    cycle ends in [error] with the thrown message, the new disease
    label stays stored and its card stays rendered next to the error
    panel's message.  After a rejected explanation call no voice call
    is made and the explanation cell is left as it was; after a
    rejected voice call the new explanation is stored and the audio
    cell is left as it was. *)
Theorem rejected_later_call_is_fatal
  (gw : Gateway) (st : Store) (image : File) (r : PredictionResult)
  (d : string) (err : Thrown) :
  let crop := selectedCrop (page st) in
  let language := selectedLanguage (page st) in
  selectedImage (page st) = Some image ->
  gw_predictDisease gw image crop = Fulfilled r ->
  pr_success r = true -> pr_disease r = Some d -> d <> "" ->
  let out := cycle gw st in
  let s' := page (final out) in
  (gw_getExplanation gw crop d language = Rejected err ->
     analysisState s' = Error
     /\ error s' = thrown_message err
     /\ disease s' = d /\ rendersDiseaseCard s' = true
     /\ explanation s' = explanation (page st)
     /\ calls (trace out)
        = [predictDisease image crop; getExplanation crop d language])
  /\ (forall e,
        gw_getExplanation gw crop d language = Fulfilled e ->
        gw_generateVoice gw (explTextOf e) language = Rejected err ->
        analysisState s' = Error
        /\ error s' = thrown_message err
        /\ disease s' = d /\ rendersDiseaseCard s' = true
        /\ explanation s' = explTextOf e
        /\ audioBase64 s' = audioBase64 (page st)
        /\ calls (trace out)
           = [predictDisease image crop; getExplanation crop d language;
              generateVoice (explTextOf e) language]).
Proof.
  intros crop language Himg Hgw Hs Hd Hne out s'.
  apply truthy_nonempty in Hne. subst s' out. split.
  - intros He.
    rewrite (cycle_explanation_rejected gw st image r d err
               Himg Hgw Hs Hd Hne He).
    unfold rendersDiseaseCard. cbn. repeat split. exact Hne.
  - intros e He Hv.
    rewrite (cycle_voice_rejected gw st image r d e err
               Himg Hgw Hs Hd Hne He Hv).
    unfold rendersDiseaseCard. cbn. repeat split. exact Hne.
Qed.

Lemma rejected_later_call_is_fatal_witness :
  let gw := {| gw_predictDisease := gw_predictDisease gw_ok;
               gw_getExplanation := fun _ _ _ => Rejected OtherValue;
               gw_generateVoice := gw_generateVoice gw_ok |} in
  let out := cycle gw leaf_selected in
  analysisState (page (final out)) = Error
  /\ error (page (final out)) = "An error occurred during analysis"
  /\ disease (page (final out)) = "Early Blight"
  /\ calls (trace out)
     = [predictDisease leaf "Tomato";
        getExplanation "Tomato" "Early Blight" "English"].
Proof.
  intros gw.
  destruct (rejected_later_call_is_fatal gw leaf_selected leaf early_blight
              "Early Blight" OtherValue)
    as [Hexpl _];
    [reflexivity | reflexivity | reflexivity | reflexivity | discriminate |].
  destruct (Hexpl eq_refl) as (Hstate & Hmsg & Hd & _ & _ & Hcalls).
  intros out. split; [exact Hstate | split; [exact Hmsg | split; [exact Hd | exact Hcalls]]].
Defined.

(** ** Missing fields in successful results *)

(** X5.  An explanation result that reports [success = true] but
    carries no text (the field is absent or empty) is treated like a
    failure: the fallback string is stored as the explanation and is
    the text sent to the voice call. *)
Theorem explanation_without_text_falls_back
  (gw : Gateway) (st : Store) (image : File) (r : PredictionResult)
  (d : string) (e : ExplanationResult) :
  let crop := selectedCrop (page st) in
  let language := selectedLanguage (page st) in
  selectedImage (page st) = Some image ->
  gw_predictDisease gw image crop = Fulfilled r ->
  pr_success r = true -> pr_disease r = Some d -> d <> "" ->
  gw_getExplanation gw crop d language = Fulfilled e ->
  er_success e = true ->
  er_explanation e = None \/ er_explanation e = Some "" ->
  let out := cycle gw st in
  explanation (page (final out)) = fallbackExplanation
  /\ calls (trace out)
     = [predictDisease image crop; getExplanation crop d language;
        generateVoice fallbackExplanation language].
Proof.
  intros crop language Himg Hgw Hs Hd Hne He Hes Hmissing out.
  apply truthy_nonempty in Hne.
  assert (Htext : explTextOf e = fallbackExplanation).
  { unfold explTextOf. rewrite Hes. destruct Hmissing as [-> | ->]; reflexivity. }
  destruct (cycle_reaches_voice gw st image r d e Himg Hgw Hs Hd Hne He)
    as (rest & Htrace & Hrest & Hexpl).
  rewrite Htext in Htrace, Hexpl. fold crop language in Htrace. subst out.
  split; [exact Hexpl |]. rewrite Htrace. cbn. now rewrite Hrest.
Qed.

Lemma explanation_without_text_falls_back_witness :
  let silent := {| er_success := true; er_explanation := Some "";
                   er_error := None |} in
  let gw := constant_gateway early_blight silent voice_ready in
  explanation (page (final (cycle gw leaf_selected))) = fallbackExplanation.
Proof.
  intros silent gw.
  destruct (explanation_without_text_falls_back gw leaf_selected leaf
              early_blight "Early Blight" silent)
    as [Hexpl _];
    [reflexivity | reflexivity | reflexivity | reflexivity | discriminate
    | reflexivity | reflexivity | right; reflexivity |].
  exact Hexpl.
Defined.

(** X6.  A cycle whose classification succeeds and whose three calls
    all return ends in [complete] with every result cell rewritten,
    whatever the page held before: no error message, the new disease
    label, the new confidence (0 when the result has none), a non-empty
    explanation, and the audio payload of the voice result or none.
    The page then renders the disease card and the explanation, exactly
    one of the audio player and the local speech control, and neither
    the error panel nor the placeholder. *)
Theorem completed_cycle_rewrites_results
  (gw : Gateway) (st : Store) (image : File) (r : PredictionResult)
  (d : string) (e : ExplanationResult) (v : VoiceResult) :
  let crop := selectedCrop (page st) in
  let language := selectedLanguage (page st) in
  selectedImage (page st) = Some image ->
  gw_predictDisease gw image crop = Fulfilled r ->
  pr_success r = true -> pr_disease r = Some d -> d <> "" ->
  gw_getExplanation gw crop d language = Fulfilled e ->
  gw_generateVoice gw (explTextOf e) language = Fulfilled v ->
  let s' := page (final (cycle gw st)) in
  analysisState s' = Complete
  /\ error s' = ""
  /\ disease s' = d
  /\ (pr_confidence r = None -> confidence s' = 0%Q)
  /\ (forall q, pr_confidence r = Some q -> Qeq_bool q 0 = false ->
        confidence s' = q)
  /\ explanation s' = explTextOf e /\ explanation s' <> ""
  /\ (forall a, vr_success v = true -> vr_audioBase64 v = Some a ->
        audioBase64 s' = a)
  /\ (vr_success v = false \/ vr_audioBase64 v = None -> audioBase64 s' = "")
  /\ rendersDiseaseCard s' = true
  /\ rendersExplanation s' = true
  /\ rendersSpeechFallback s' = negb (rendersAudioPlayer s')
  /\ rendersErrorPanel s' = false
  /\ rendersIdlePlaceholder s' = false.
Proof.
  intros crop language Himg Hgw Hs Hd Hne He Hv s'.
  apply truthy_nonempty in Hne. subst s'.
  rewrite (cycle_classified gw st image r d e v Himg Hgw Hs Hd Hne He Hv).
  pose proof (explTextOf_truthy e) as Ht.
  unfold rendersDiseaseCard, rendersExplanation, rendersSpeechFallback,
    rendersAudioPlayer, rendersErrorPanel, rendersIdlePlaceholder.
  cbn. rewrite Hne, Ht. cbn.
  split; [reflexivity |]. split; [reflexivity |]. split; [reflexivity |].
  split; [intros ->; reflexivity |].
  split; [intros q -> Hq; cbn; now rewrite Hq |].
  split; [reflexivity |]. split; [now apply truthy_nonempty |].
  split; [| split].
  - intros a Hvs Ha. unfold audioOf. rewrite Hvs, Ha. cbn.
    destruct a; reflexivity.
  - intros [Hvs | Ha]; unfold audioOf; [now rewrite Hvs |].
    rewrite Ha. now rewrite andb_false_r.
  - repeat split. now rewrite andb_true_r.
Qed.

Lemma completed_cycle_rewrites_results_witness :
  let s' := page (final (cycle gw_ok leaf_selected)) in
  analysisState s' = Complete /\ error s' = ""
  /\ disease s' = "Early Blight" /\ audioBase64 s' = "<b64>".
Proof.
  destruct (completed_cycle_rewrites_results gw_ok leaf_selected leaf
              early_blight "Early Blight" blight_explained voice_ready)
    as (Hstate & Herr & Hd & _ & _ & _ & _ & Haudio & _);
    [reflexivity | reflexivity | reflexivity | reflexivity | discriminate
    | reflexivity | reflexivity |].
  intros s'. split; [exact Hstate | split; [exact Herr | split; [exact Hd |]]].
  now apply Haudio.
Defined.

(** ** Media Intake: messages and drops *)

(** X8.  Media Intake checks the type before the size: a file whose
    type does not start with ["image/"] is answered with "Please upload
    an image file" whatever its size, an image over 10,485,760 bytes
    with "File size must be less than 10MB"; and although that message
    says "less than", an image of exactly 10,485,760 bytes is
    accepted. *)
Theorem rejection_alerts (gw : Gateway) (st : Store) (file : File) :
  let out := run gw (selectFile file) st in
  (String.prefix "image/" (file_type file) = false ->
     trace out = [Out (alert "Please upload an image file")])
  /\ (String.prefix "image/" (file_type file) = true ->
      (10485760 < file_size file)%Z ->
      trace out = [Out (alert "File size must be less than 10MB")])
  /\ (String.prefix "image/" (file_type file) = true ->
      file_size file = 10485760%Z ->
      trace out = [Out (readAsDataURL file)]
      /\ selectedImage (page (final out)) = Some file).
Proof.
  cbv zeta. unfold selectFile, handleFile, maxFileSize. split; [| split].
  - intros ->. reflexivity.
  - intros -> Hsz. cbn [negb].
    destruct (Z.ltb_spec (10 * 1024 * 1024) (file_size file)); [reflexivity | lia].
  - intros Hp Hsz. rewrite Hp, Hsz. split; reflexivity.
Qed.

Lemma rejection_alerts_witness :
  let notes := {| file_name := "notes.pdf"; file_type := "application/pdf";
                  file_size := 20000000 |} in
  trace (run gw_ok (selectFile notes) initialStore)
  = [Out (alert "Please upload an image file")].
Proof.
  intros notes.
  destruct (rejection_alerts gw_ok initialStore notes) as [Htype _].
  apply Htype. reflexivity.
Defined.

(** X9.  A drop always ends the drag highlight, whatever was dropped,
    and never sets the preview itself.  With no file it changes nothing
    else; with files only the first one counts, and the page and the
    outputs are those of choosing that file.  A change of the file
    input behaves the same way, without the highlight. *)
Theorem drop_uses_first_file (gw : Gateway) (st : Store) (files : list File) :
  let dropped := run gw (handleDrop handleImageSelect files) st in
  let changed := run gw (handleChange handleImageSelect files) st in
  dragActive (upload (final dropped)) = false
  /\ preview (upload (final dropped)) = preview (upload st)
  /\ match files with
     | [] =>
         page (final dropped) = page st /\ trace dropped = []
         /\ final changed = st /\ trace changed = []
     | file :: _ =>
         let chosen := run gw (selectFile file) st in
         page (final dropped) = page (final chosen)
         /\ trace dropped = trace chosen
         /\ changed = chosen
     end.
Proof.
  cbv zeta. destruct files as [| file rest].
  - cbn. repeat split.
  - unfold handleDrop, handleChange, selectFile, handleFile.
    destruct (negb (String.prefix "image/" (file_type file)));
      [cbn; repeat split |].
    destruct (maxFileSize <? file_size file)%Z; cbn; repeat split.
Qed.

(** ** What every session keeps *)

Lemma supported_crop_cases (c : string) :
  supported_crop c <-> c = "Tomato" \/ c = "Potato" \/ c = "Apple".
Proof.
  unfold supported_crop. rewrite list_elem_of_In. cbn.
  split; intros H; repeat (destruct H as [H | H]); subst; tauto.
Qed.

Lemma supported_language_cases (l : string) :
  supported_language l
  <-> l = "English" \/ l = "Hindi" \/ l = "Telugu" \/ l = "Tamil"
      \/ l = "Bengali" \/ l = "Marathi".
Proof.
  unfold supported_language. rewrite list_elem_of_In. cbn.
  split; intros H; repeat (destruct H as [H | H]); subst; tauto.
Qed.

Lemma wf_set_keeps (u : Setter) (st : Store) :
  wf_set u -> wf_store st -> wf_store (apply_setter u st).
Proof.
  intros Hu (Himg & Hcrop & Hlang).
  destruct u; cbn in *; try (split; [exact Himg | split; assumption]).
  split; [| split; assumption].
  intros f0 Hf0. destruct f as [f1 |]; [| discriminate].
  injection Hf0 as <-. exact Hu.
Qed.

Lemma handleAnalyze_wf (st : Store) :
  wf_store st -> confined wf_set wf_req (handleAnalyze (page st)).
Proof.
  intros (Himg & Hcrop & Hlang). unfold handleAnalyze.
  destruct (selectedImage (page st)) as [image |] eqn:Hsel; cbn; [| tauto].
  specialize (Himg image eq_refl).
  repeat (split; [tauto |]). intros [r | e]; cbn; [| tauto].
  destruct (negb (pr_success r) || negb (truthy_opt (pr_disease r)));
    cbn; [tauto |].
  repeat (split; [tauto |]). intros [x | e]; cbn; [| tauto].
  repeat (split; [tauto |]). intros [v | e]; cbn; [| tauto].
  destruct (vr_success v && truthy_opt (vr_audioBase64 v)); cbn; tauto.
Qed.

Lemma selectFile_wf (file : File) :
  confined wf_set wf_req (handleFile handleImageSelect file).
Proof.
  unfold handleFile, maxFileSize.
  destruct (String.prefix "image/" (file_type file)) eqn:Hp; cbn; [| tauto].
  destruct (Z.ltb_spec (10 * 1024 * 1024) (file_size file)) as [Hlt | Hle];
    cbn; [tauto |].
  assert (Hok : acceptable file) by (split; [exact Hp | lia]). tauto.
Qed.

Lemma step_wf (ss ss' : Session) (ev : Event) :
  session_confined wf_store wf_set wf_req ss ->
  step ss ev = Some ss' ->
  session_confined wf_store wf_set wf_req ss'.
Proof.
  intros Hss Hstep.
  pose proof (confined_dispatch wf_store wf_set wf_req wf_set_keeps) as Hd.
  destruct ev; cbn in Hstep.
  - destruct (bool_decide _) eqn:Hc; [| discriminate]. injection Hstep as <-.
    apply bool_decide_eq_true in Hc. apply Hd; [exact Hss | cbn; tauto].
  - destruct (bool_decide _) eqn:Hl; [| discriminate]. injection Hstep as <-.
    apply bool_decide_eq_true in Hl. apply Hd; [exact Hss | cbn; tauto].
  - destruct (rendersPreview _); [discriminate |]. injection Hstep as <-.
    apply Hd; [exact Hss |]. unfold handleDrag.
    destruct (bool_decide (eventType = "dragenter")
              || bool_decide (eventType = "dragover")); [cbn; tauto |].
    destruct (bool_decide (eventType = "dragleave")); cbn; tauto.
  - destruct (rendersPreview _); [discriminate |]. injection Hstep as <-.
    apply Hd; [exact Hss |].
    destruct files as [| file rest]; cbn; [tauto |].
    split; [exact I | apply selectFile_wf].
  - destruct (rendersPreview _); [discriminate |]. injection Hstep as <-.
    apply Hd; [exact Hss |].
    destruct files as [| file rest]; cbn; [tauto | apply selectFile_wf].
  - destruct (rendersPreview _); [| discriminate]. injection Hstep as <-.
    apply Hd; [exact Hss | cbn; tauto].
  - destruct (analyzeDisabled _); [discriminate |]. injection Hstep as <-.
    apply Hd; [exact Hss | apply handleAnalyze_wf, Hss].
  - destruct (rendersSpeechFallback _); [| discriminate]. injection Hstep as <-.
    apply Hd; [exact Hss | cbn; tauto].
  - destruct (readers ss !! i); [| discriminate]. injection Hstep as <-.
    apply Hd; [exact Hss | cbn; tauto].
  - destruct (inflight ss !! i) as [sus |] eqn:Hi; [| discriminate].
    destruct (resume sus rep) as [m |] eqn:Hm; [| discriminate].
    injection Hstep as <-.
    now apply (confined_settle wf_store wf_set wf_req wf_set_keeps ss i sus rep m).
Qed.

Lemma exec_wf (evs : list Event) :
  forall ss ss',
    session_confined wf_store wf_set wf_req ss ->
    exec ss evs = Some ss' ->
    session_confined wf_store wf_set wf_req ss'.
Proof.
  induction evs as [| ev evs IH]; intros ss ss' Hss Hexec; cbn in *.
  - injection Hexec as <-. exact Hss.
  - destruct (step ss ev) as [ss1 |] eqn:Hstep; [| discriminate].
    apply (IH ss1 ss'); [| exact Hexec]. now apply (step_wf ss ss1 ev).
Qed.

Lemma initialSession_wf : session_confined wf_store wf_set wf_req initialSession.
Proof.
  split; [| constructor]. split; [discriminate |].
  split; [apply supported_crop_cases | apply supported_language_cases]; cbn; tauto.
Qed.

Lemma reachable_wf (evs : list Event) (ss : Session) :
  exec initialSession evs = Some ss ->
  wf_store (store ss) /\ Forall wf_req (pending_requests ss).
Proof.
  intros Hexec.
  destruct (exec_wf evs initialSession ss initialSession_wf Hexec) as [Hst Hin].
  split; [exact Hst |]. unfold pending_requests. apply Forall_fmap.
  eapply Forall_impl; [exact Hin |]. intros [r k] [Hr _]. exact Hr.
Qed.

(** X10.  In every session, whatever the user does and in whatever
    order replies arrive, the selected image is a validated one (type
    starting with ["image/"], at most 10,485,760 bytes), and so is the
    image of every pending classification call: no other file ever
    reaches the page state or the gateway. *)
Theorem selected_image_is_always_valid (evs : list Event) (ss : Session) :
  exec initialSession evs = Some ss ->
  (forall f, selectedImage (page (store ss)) = Some f -> acceptable f)
  /\ (forall f c, In (predictDisease f c) (pending_requests ss) ->
                  acceptable f).
Proof.
  intros Hexec. destruct (reachable_wf evs ss Hexec) as [(Himg & _) Hreq].
  split; [exact Himg |]. intros f c Hin.
  rewrite Forall_forall in Hreq.
  apply list_elem_of_In in Hin. apply (Hreq _ Hin).
Qed.

Lemma selected_image_is_always_valid_witness :
  let big := {| file_name := "scan.png"; file_type := "image/png";
                file_size := 50000000 |} in
  match exec initialSession
          [InputChanged [leaf]; ClickAnalyze; FilesDropped [big]] with
  | Some ss =>
      selectedImage (page (store ss)) = Some leaf /\ acceptable leaf
  | None => False
  end.
Proof.
  intros big.
  destruct (exec initialSession
              [InputChanged [leaf]; ClickAnalyze; FilesDropped [big]])
    as [ss |] eqn:Hexec.
  - assert (Hsel : selectedImage (page (store ss)) = Some leaf).
    { vm_compute in Hexec. injection Hexec as <-. reflexivity. }
    split; [exact Hsel |].
    destruct (selected_image_is_always_valid _ ss Hexec) as [Himg _].
    now apply Himg.
  - vm_compute in Hexec. discriminate.
Defined.

(** X11.  In every session the selected crop is one of [CROPS] and the
    selected language one of [LANGUAGES]; every pending call carries
    such labels; exactly one crop button and exactly one language
    button are drawn as selected; and the locale of the local speech
    fallback is en-US or hi-IN. *)
Theorem labels_are_always_supported (evs : list Event) (ss : Session) :
  exec initialSession evs = Some ss ->
  let s := page (store ss) in
  supported_crop (selectedCrop s)
  /\ supported_language (selectedLanguage s)
  /\ (forall r, In r (pending_requests ss) ->
        match r with
        | predictDisease _ c => supported_crop c
        | getExplanation c _ l => supported_crop c /\ supported_language l
        | generateVoice _ l => supported_language l
        end)
  /\ length (highlightedCrops s) = 1%nat
  /\ length (highlightedLanguages s) = 1%nat
  /\ (utteranceLang (selectedLanguage s) = JsString "en-US"
      \/ utteranceLang (selectedLanguage s) = JsString "hi-IN").
Proof.
  intros Hexec s.
  destruct (reachable_wf evs ss Hexec) as [(_ & Hcrop & Hlang) Hreq].
  fold s in Hcrop, Hlang.
  split; [exact Hcrop | split; [exact Hlang |]]. split.
  - intros r Hin. rewrite Forall_forall in Hreq.
    apply list_elem_of_In in Hin. specialize (Hreq _ Hin).
    destruct r; cbn in Hreq; tauto.
  - apply supported_crop_cases in Hcrop.
    apply supported_language_cases in Hlang.
    unfold highlightedCrops, highlightedLanguages.
    split; [| split].
    + destruct Hcrop as [-> | [-> | ->]]; vm_compute; reflexivity.
    + destruct Hlang as [-> | [-> | [-> | [-> | [-> | ->]]]]];
        vm_compute; reflexivity.
    + destruct Hlang as [-> | [-> | [-> | [-> | [-> | ->]]]]];
        vm_compute; tauto.
Qed.

Lemma labels_are_always_supported_witness :
  match exec initialSession
          [ClickCrop "Potato"; ClickLanguage "Tamil"; InputChanged [leaf];
           ClickAnalyze] with
  | Some ss =>
      pending_requests ss = [predictDisease leaf "Potato"]
      /\ length (highlightedCrops (page (store ss))) = 1%nat
      /\ utteranceLang (selectedLanguage (page (store ss))) = JsString "en-US"
  | None => False
  end.
Proof.
  destruct (exec initialSession
              [ClickCrop "Potato"; ClickLanguage "Tamil"; InputChanged [leaf];
               ClickAnalyze]) as [ss |] eqn:Hexec.
  - destruct (labels_are_always_supported _ ss Hexec)
      as (_ & _ & _ & Hone & _ & _).
    split; [| split; [exact Hone |]];
      vm_compute in Hexec; injection Hexec as <-; reflexivity.
  - vm_compute in Hexec. discriminate.
Defined.

(** ** Loading stages and pending calls *)

Lemma dispatch_staged (m : Async unit) (ss : Session) :
  staged None m -> Forall restaged (inflight ss) -> stage_shown (dispatch m ss).
Proof.
  intros Hm Hin.
  pose proof (advance_staged m None (store ss) Hm) as H.
  cbv zeta in H. unfold stage_shown, dispatch. cbn.
  destruct (parked (advance m (store ss))) as [[r k] |]; cbn.
  - destruct H as [Ha Hk]; [discriminate |]. split.
    + apply Forall_app. split; [exact Hin | now repeat constructor].
    + intros _. eauto.
  - rewrite app_nil_r. split; [exact Hin |].
    destruct H as [-> | ->]; [discriminate | | ]; discriminate.
Qed.

Lemma dispatch_resting (m : Async unit) (ss : Session) :
  parked (advance m (store ss)) = None ->
  analysisState (page (reached (advance m (store ss))))
    = analysisState (page (store ss))
  \/ analysisState (page (reached (advance m (store ss)))) = Idle ->
  stage_shown ss -> stage_shown (dispatch m ss).
Proof.
  intros Hp Ha [Hin Hshow]. unfold stage_shown, dispatch. cbn.
  rewrite Hp. cbn. rewrite app_nil_r. split; [exact Hin |].
  destruct Ha as [-> | ->]; [exact Hshow | discriminate].
Qed.

Lemma dispatch_inert_shown (m : Async unit) (ss : Session) :
  inert m = true -> stage_shown ss -> stage_shown (dispatch m ss).
Proof.
  intros Hm Hss. destruct (advance_inert m Hm (store ss)) as [Hp Ha].
  apply dispatch_resting; [exact Hp | now left | exact Hss].
Qed.

Lemma selectFile_resting (file : File) (st : Store) :
  let p := advance (handleFile handleImageSelect file) st in
  parked p = None
  /\ (analysisState (page (reached p)) = analysisState (page st)
      \/ analysisState (page (reached p)) = Idle).
Proof.
  unfold handleFile.
  destruct (negb (String.prefix "image/" (file_type file))); cbn; [tauto |].
  destruct (maxFileSize <? file_size file)%Z; cbn; tauto.
Qed.

Lemma step_stage_shown (ss ss' : Session) (ev : Event) :
  stage_shown ss -> step ss ev = Some ss' -> stage_shown ss'.
Proof.
  intros Hss Hstep. destruct ev; cbn in Hstep.
  - destruct (bool_decide _); [| discriminate]. injection Hstep as <-.
    now apply dispatch_inert_shown.
  - destruct (bool_decide _); [| discriminate]. injection Hstep as <-.
    now apply dispatch_inert_shown.
  - destruct (rendersPreview _); [discriminate |]. injection Hstep as <-.
    apply dispatch_inert_shown; [apply handleDrag_inert | exact Hss].
  - destruct (rendersPreview _); [discriminate |]. injection Hstep as <-.
    destruct files as [| file rest].
    + now apply dispatch_inert_shown.
    + destruct (selectFile_resting file
                  (apply_setter (setDragActive false) (store ss))) as [Hp Ha].
      apply dispatch_resting; [exact Hp | exact Ha | exact Hss].
  - destruct (rendersPreview _); [discriminate |]. injection Hstep as <-.
    destruct files as [| file rest].
    + now apply dispatch_inert_shown.
    + destruct (selectFile_resting file (store ss)) as [Hp Ha].
      apply dispatch_resting; [exact Hp | exact Ha | exact Hss].
  - destruct (rendersPreview _); [| discriminate]. injection Hstep as <-.
    apply dispatch_resting; [reflexivity | now right | exact Hss].
  - destruct (analyzeDisabled (page (store ss))) eqn:Hgate; [discriminate |].
    injection Hstep as <-.
    unfold analyzeDisabled in Hgate. apply orb_false_iff in Hgate.
    destruct Hgate as [Himg _].
    apply negb_false_iff, bool_decide_eq_true in Himg.
    apply dispatch_staged; [now apply handleAnalyze_staged | apply Hss].
  - destruct (rendersSpeechFallback _); [| discriminate]. injection Hstep as <-.
    now apply dispatch_inert_shown.
  - destruct (readers ss !! i); [| discriminate]. injection Hstep as <-.
    apply dispatch_inert_shown; [reflexivity | exact Hss].
  - destruct (inflight ss !! i) as [sus |] eqn:Hi; [| discriminate].
    destruct (resume sus rep) as [m |] eqn:Hm; [| discriminate].
    injection Hstep as <-. destruct Hss as [Hin _].
    pose proof (proj1 (Forall_lookup _ _) Hin i sus Hi) as Hsus.
    destruct sus as [r k]. destruct (resume_continues r k rep m Hm) as [o ->].
    apply dispatch_staged; [apply Hsus | cbn; now apply Forall_delete].
Qed.

Lemma exec_stage_shown (evs : list Event) :
  forall ss ss', stage_shown ss -> exec ss evs = Some ss' -> stage_shown ss'.
Proof.
  induction evs as [| ev evs IH]; intros ss ss' Hss Hexec; cbn in *.
  - injection Hexec as <-. exact Hss.
  - destruct (step ss ev) as [ss1 |] eqn:Hstep; [| discriminate].
    apply (IH ss1 ss'); [| exact Hexec]. now apply (step_stage_shown ss ss1 ev).
Qed.

(** X14.  In every session, also when images are removed or chosen
    while calls are pending and several cycles overlap, a loading stage
    on the page is never left without its call: whenever AnalysisState
    is [predicting], [explaining] or [generating-voice], a call is
    pending, and the call parked last is the one of the stage shown.
    So when nothing is pending the page is [idle], [complete] or
    [error] and the Analyze button is not stuck on a progress text. *)
Theorem loading_stage_has_pending_call (evs : list Event) (ss : Session) :
  exec initialSession evs = Some ss ->
  let a := analysisState (page (store ss)) in
  (isLoading a = true ->
     exists earlier r,
       pending_requests ss = (earlier ++ [r])%list /\ a = stage_of r)
  /\ (pending_requests ss = [] -> a = Idle \/ a = Complete \/ a = Error).
Proof.
  intros Hexec a.
  assert (Hinit : stage_shown initialSession).
  { split; [constructor | discriminate]. }
  destruct (exec_stage_shown evs initialSession ss Hinit Hexec) as [_ Hshow].
  fold a in Hshow.
  assert (Hloading : isLoading a = true ->
            exists earlier r,
              pending_requests ss = (earlier ++ [r])%list /\ a = stage_of r).
  { intros Hl. destruct (Hshow Hl) as (earlier & r & k & Hin & Ha).
    exists (map (fun sus => match sus with Susp r' _ => r' end) earlier), r.
    split; [| exact Ha]. unfold pending_requests. rewrite Hin.
    now rewrite map_app. }
  split; [exact Hloading |]. intros Hnone.
  destruct (isLoading a) eqn:Hl.
  - destruct (Hloading eq_refl) as (earlier & r & Hp & _).
    rewrite Hnone in Hp. destruct earlier; discriminate.
  - destruct a; try discriminate; tauto.
Qed.

Lemma loading_stage_has_pending_call_witness :
  match exec initialSession
          (reselect_during_call
           ++ [Settle 0 (predicted (Fulfilled early_blight))])%list with
  | Some ss =>
      analysisState (page (store ss)) = Explaining
      /\ exists earlier r,
           pending_requests ss = (earlier ++ [r])%list
           /\ analysisState (page (store ss)) = stage_of r
  | None => False
  end.
Proof.
  destruct (exec initialSession
              (reselect_during_call
               ++ [Settle 0 (predicted (Fulfilled early_blight))])%list)
    as [ss |] eqn:Hexec.
  - assert (Ha : analysisState (page (store ss)) = Explaining).
    { vm_compute in Hexec. injection Hexec as <-. reflexivity. }
    split; [exact Ha |].
    destruct (loading_stage_has_pending_call _ ss Hexec) as [Hloading _].
    apply Hloading. now rewrite Ha.
  - vm_compute in Hexec. discriminate.
Defined.

(** ** A cycle in the event loop *)

Lemma resume_reply (gw : Gateway) (r : Request)
  (k : Settled (Response r) -> Async unit) :
  resume (Susp r k) (reply_of gw r) = Some (k (answer gw r)).
Proof. destruct r; reflexivity. Qed.

Lemma drive_run (gw : Gateway) (m : Async unit) :
  forall n st ss,
    store ss = reached (advance m st) ->
    inflight ss = option_list (parked (advance m st)) ->
    awaits_at_most n m ->
    exists ss',
      drive gw n ss = Some ss'
      /\ store ss' = final (run gw m st)
      /\ inflight ss' = [].
Proof.
  induction m as [x | e | u k IH | o k IH | r k IH]; intros n st ss Hst Hin Hn;
    cbn in *.
  - exists ss. destruct n; cbn; rewrite ?Hin; auto.
  - exists ss. destruct n; cbn; rewrite ?Hin; auto.
  - now apply (IH n (apply_setter u st) ss).
  - now apply (IH n st ss).
  - destruct n as [| n]; [destruct Hn |]. cbn [drive]. rewrite Hin.
    cbn -[resume drive dispatch]. rewrite Hin.
    cbn -[resume drive dispatch]. rewrite resume_reply.
    apply (IH (answer gw r) n st); [| | apply Hn]; cbn; now rewrite Hst.
Qed.

Lemma handleAnalyze_three_awaits (s : PageState) :
  awaits_at_most 3 (handleAnalyze s).
Proof.
  unfold handleAnalyze. destruct (selectedImage s) as [image |]; cbn; [| exact I].
  intros [r | e]; cbn; [| exact I].
  destruct (negb (pr_success r) || negb (truthy_opt (pr_disease r)));
    cbn; [exact I |].
  intros [x | e]; cbn; [| exact I].
  intros [v | e]; cbn; [| exact I].
  destruct (vr_success v && truthy_opt (vr_audioBase64 v)); exact I.
Qed.

(** X13.  In the event loop, an Analyze click on a page with nothing
    pending, followed by the gateway's replies with no other event in
    between, needs at most three replies and leaves exactly the page
    that the cycle run in one go ([cycle]) ends with, and nothing
    pending. *)
Theorem event_loop_runs_the_cycle (gw : Gateway) (ss : Session) :
  inflight ss = [] ->
  analyzeDisabled (page (store ss)) = false ->
  exists clicked settled,
    step ss ClickAnalyze = Some clicked
    /\ drive gw 3 clicked = Some settled
    /\ store settled = final (cycle gw (store ss))
    /\ inflight settled = [].
Proof.
  intros Hnil Hgate. unfold step. rewrite Hgate.
  destruct (drive_run gw (handleAnalyze (page (store ss))) 3 (store ss)
              (dispatch (handleAnalyze (page (store ss))) ss))
    as (settled & Hdrive & Hstore & Hin);
    [reflexivity | cbn; now rewrite Hnil | apply handleAnalyze_three_awaits |].
  exists (dispatch (handleAnalyze (page (store ss))) ss), settled.
  split; [reflexivity | split; [exact Hdrive | split; [exact Hstore | exact Hin]]].
Qed.

Lemma event_loop_runs_the_cycle_witness :
  let ss := {| store := leaf_selected; inflight := []; readers := [leaf];
               outputs := [readAsDataURL leaf] |} in
  exists clicked settled,
    step ss ClickAnalyze = Some clicked
    /\ drive gw_ok 3 clicked = Some settled
    /\ store settled = final (cycle gw_ok leaf_selected)
    /\ inflight settled = [].
Proof.
  intros ss.
  apply (event_loop_runs_the_cycle gw_ok ss); reflexivity.
Defined.

(** X12.  A cycle works with the crop and the language that were
    selected when Analyze was clicked: if the user picks another crop
    and another language while the classification call is pending, the
    explanation is still requested for the crop and in the language of
    the click, while the page (and so the disease card, which prints
    the current selection) shows the new ones next to the new disease
    label. *)
Theorem pending_cycle_keeps_clicked_labels
  (ss : Session) (c l : string) (r : PredictionResult) (d : string) :
  inflight ss = [] ->
  analyzeDisabled (page (store ss)) = false ->
  supported_crop c -> supported_language l ->
  pr_success r = true -> pr_disease r = Some d -> d <> "" ->
  exists ss',
    exec ss [ClickAnalyze; ClickCrop c; ClickLanguage l;
             Settle 0 (predicted (Fulfilled r))] = Some ss'
    /\ pending_requests ss'
       = [getExplanation (selectedCrop (page (store ss))) d
                         (selectedLanguage (page (store ss)))]
    /\ selectedCrop (page (store ss')) = c
    /\ selectedLanguage (page (store ss')) = l
    /\ disease (page (store ss')) = d
    /\ rendersDiseaseCard (page (store ss')) = true.
Proof.
  intros Hnil Hgate Hc Hl Hs Hd Hne. apply truthy_nonempty in Hne.
  pose proof Hgate as Himg. unfold analyzeDisabled in Himg.
  apply orb_false_iff in Himg. destruct Himg as [Himg _].
  apply negb_false_iff, bool_decide_eq_true in Himg.
  destruct Himg as [image Himg].
  unfold exec, step. rewrite Hgate.
  unfold dispatch at 1 2 3. unfold handleAnalyze. rewrite Himg. cbn.
  rewrite (bool_decide_eq_true_2 _ Hc). cbn.
  rewrite (bool_decide_eq_true_2 _ Hl). cbn.
  rewrite Hnil. cbn. rewrite Hs, Hd. cbn. rewrite Hne. cbn.
  eexists. split; [reflexivity |].
  unfold rendersDiseaseCard. cbn. rewrite Hne. repeat split.
Qed.

Lemma pending_cycle_keeps_clicked_labels_witness :
  let ss := {| store := leaf_selected; inflight := []; readers := [];
               outputs := [] |} in
  exists ss',
    exec ss [ClickAnalyze; ClickCrop "Apple"; ClickLanguage "Hindi";
             Settle 0 (predicted (Fulfilled early_blight))] = Some ss'
    /\ pending_requests ss'
       = [getExplanation "Tomato" "Early Blight" "English"]
    /\ selectedCrop (page (store ss')) = "Apple"
    /\ selectedLanguage (page (store ss')) = "Hindi".
Proof.
  intros ss.
  destruct (pending_cycle_keeps_clicked_labels ss "Apple" "Hindi"
              early_blight "Early Blight")
    as (ss' & Hexec & Hreq & Hcrop & Hlang & _);
    [reflexivity | reflexivity
    | apply supported_crop_cases; tauto
    | apply supported_language_cases; tauto
    | reflexivity | reflexivity | discriminate |].
  exists ss'. tauto.
Defined.

(** ** Error panel and error state, one cycle at a time *)

Lemma error_after_spec (u : Setter) (st : Store) :
  truthy (error (page (apply_setter u st)))
  = error_after u (truthy (error (page st))).
Proof. destruct u; reflexivity. Qed.

Lemma advance_tidy (m : Async unit) :
  forall st,
    tidy (analysisState (page st)) (truthy (error (page st))) m ->
    let p := advance m st in
    message_matches_state (reached p)
    /\ match parked p with
       | None => True
       | Some (Susp _ k) =>
           forall x, tidy (analysisState (page (reached p)))
                          (truthy (error (page (reached p))))
                          (k (Fulfilled x))
       end.
Proof.
  induction m as [x | e | u k IH | o k IH | r k IH]; intros st H; cbn in *.
  - split; [exact H | exact I].
  - split; [exact H | exact I].
  - apply IH. now rewrite stage_after_spec, error_after_spec.
  - now apply IH.
  - exact H.
Qed.

Lemma advance_quiet (m : Async unit) :
  quiet m = true ->
  forall st,
    parked (advance m st) = None
    /\ analysisState (page (reached (advance m st))) = analysisState (page st)
    /\ error (page (reached (advance m st))) = error (page st).
Proof.
  induction m as [x | e | u k IH | o k IH | r k IH]; intros Hm st; cbn in *.
  - repeat split.
  - repeat split.
  - assert (Hk : quiet k = true) by (destruct u; congruence).
    destruct (IH Hk (apply_setter u st)) as (Hp & Ha & He).
    split; [exact Hp |]. rewrite Ha, He.
    destruct u; try discriminate; split; reflexivity.
  - now apply IH.
  - discriminate.
Qed.

Lemma dispatch_quiet_tidy (m : Async unit) (ss : Session) :
  quiet m = true -> tidy_session ss -> tidy_session (dispatch m ss).
Proof.
  intros Hm [Hst Hin]. destruct (advance_quiet m Hm (store ss)) as (Hp & Ha & He).
  unfold tidy_session, message_matches_state, dispatch in *. cbn.
  rewrite Hp, Ha, He. cbn. rewrite app_nil_r. split; [exact Hst | exact Hin].
Qed.

Lemma dispatch_tidy (m : Async unit) (ss : Session) :
  inflight ss = [] ->
  tidy (analysisState (page (store ss))) (truthy (error (page (store ss)))) m ->
  tidy_session (dispatch m ss).
Proof.
  intros Hnil Hm. destruct (advance_tidy m (store ss) Hm) as [Hst Hp].
  unfold tidy_session, dispatch. cbn. rewrite Hnil. cbn.
  split; [exact Hst |].
  destruct (parked (advance m (store ss))) as [[r k] |]; [exact Hp | exact I].
Qed.

Lemma handleAnalyze_tidy (s : PageState) (a : AnalysisState) (e : bool) :
  is_Some (selectedImage s) -> tidy a e (handleAnalyze s).
Proof.
  intros [image Himg]. unfold handleAnalyze. rewrite Himg. cbn.
  split; [split; discriminate |]. intros r. cbn.
  destruct (negb (pr_success r) || negb (truthy_opt (pr_disease r))); cbn.
  - rewrite (or_else_truthy (pr_error r) predictFailedMessage eq_refl). tauto.
  - split; [split; discriminate |]. intros x. cbn.
    split; [split; discriminate |]. intros v. cbn.
    destruct (vr_success v && truthy_opt (vr_audioBase64 v)); cbn;
      split; discriminate.
Qed.

Lemma selectFile_tidy (file : File) (a : AnalysisState) (e : bool) :
  (e = true <-> a = Error) -> tidy a e (handleFile handleImageSelect file).
Proof.
  intros H. unfold handleFile.
  destruct (negb (String.prefix "image/" (file_type file))); cbn; [exact H |].
  destruct (maxFileSize <? file_size file)%Z; cbn; [exact H |].
  split; discriminate.
Qed.

Lemma resume_returned (r : Request) (k : Settled (Response r) -> Async unit)
  (rep : Reply) (m : Async unit) :
  resume (Susp r k) rep = Some m -> returns rep -> exists x, m = k (Fulfilled x).
Proof.
  destruct r; destruct rep as [[x | e] | [x | e] | [x | e]]; cbn;
    intros H Hret; try discriminate; try destruct Hret;
    injection H as <-; eauto.
Qed.

Lemma step_tidy (ss ss' : Session) (ev : Event) :
  in_step ss -> tidy_session ss ->
  (touches_image ev = true -> inflight ss = []) ->
  match ev with Settle _ rep => returns rep | _ => True end ->
  step ss ev = Some ss' ->
  tidy_session ss'.
Proof.
  intros Hin Hss Hcalm Hret Hstep. destruct ev; cbn in Hstep.
  - destruct (bool_decide _); [| discriminate]. injection Hstep as <-.
    now apply dispatch_quiet_tidy.
  - destruct (bool_decide _); [| discriminate]. injection Hstep as <-.
    now apply dispatch_quiet_tidy.
  - destruct (rendersPreview _); [discriminate |]. injection Hstep as <-.
    apply dispatch_quiet_tidy; [| exact Hss]. unfold handleDrag.
    destruct (bool_decide (eventType = "dragenter")
              || bool_decide (eventType = "dragover")); [reflexivity |].
    destruct (bool_decide (eventType = "dragleave")); reflexivity.
  - destruct (rendersPreview _); [discriminate |]. injection Hstep as <-.
    apply dispatch_tidy; [exact (Hcalm eq_refl) |].
    destruct files as [| file rest]; cbn; [apply Hss |].
    apply selectFile_tidy, Hss.
  - destruct (rendersPreview _); [discriminate |]. injection Hstep as <-.
    apply dispatch_tidy; [exact (Hcalm eq_refl) |].
    destruct files as [| file rest]; cbn; [apply Hss |].
    apply selectFile_tidy, Hss.
  - destruct (rendersPreview _); [| discriminate]. injection Hstep as <-.
    apply dispatch_tidy; [exact (Hcalm eq_refl) |]. cbn. split; discriminate.
  - destruct (analyzeDisabled (page (store ss))) eqn:Hgate; [discriminate |].
    injection Hstep as <-.
    unfold analyzeDisabled in Hgate. apply orb_false_iff in Hgate.
    destruct Hgate as [Himg Hload].
    apply negb_false_iff, bool_decide_eq_true in Himg.
    assert (Hnil : inflight ss = []).
    { destruct (inflight ss) as [| sus rest] eqn:Hi; [reflexivity |].
      destruct (in_step_busy ss Hin) as [Hbusy _]; congruence. }
    apply dispatch_tidy; [exact Hnil | now apply handleAnalyze_tidy].
  - destruct (rendersSpeechFallback _); [| discriminate]. injection Hstep as <-.
    now apply dispatch_quiet_tidy.
  - destruct (readers ss !! i); [| discriminate]. injection Hstep as <-.
    apply dispatch_quiet_tidy; [reflexivity | exact Hss].
  - destruct (inflight ss !! i) as [sus |] eqn:Hi; [| discriminate].
    destruct (resume sus rep) as [m |] eqn:Hm; [| discriminate].
    injection Hstep as <-. destruct Hss as [Hst Hk].
    destruct (inflight ss) as [| [r k] [| sus' rest]] eqn:Hfl;
      [discriminate | | destruct Hk].
    destruct i as [| i]; [| discriminate]. injection Hi as <-.
    destruct (resume_returned r k rep m Hm Hret) as [x ->].
    apply dispatch_tidy; [reflexivity | apply Hk].
Qed.

Lemma exec_tidy (evs : list Event) :
  forall ss ss',
    in_step ss -> tidy_session ss ->
    undisturbed ss evs -> contract_kept evs ->
    exec ss evs = Some ss' ->
    tidy_session ss'.
Proof.
  induction evs as [| ev evs IH]; intros ss ss' Hin Hss Hcalm Hret Hexec;
    cbn in *.
  - injection Hexec as <-. exact Hss.
  - destruct Hcalm as [Hev Hrest].
    destruct (step ss ev) as [ss1 |] eqn:Hstep; [| discriminate].
    apply Forall_cons in Hret. destruct Hret as [Hret1 Hret].
    apply (IH ss1 ss'); [| | exact Hrest | exact Hret | exact Hexec].
    + now apply (step_in_step ss ss1 ev).
    + now apply (step_tidy ss ss1 ev).
Qed.

(** X15.  As long as cycles do not overlap (no file is offered and the
    image is not removed while a call is pending) and the gateway
    answers every call with a structured result, the result column
    follows the state: in every such session the error panel is
    rendered exactly when AnalysisState is [error], and the placeholder
    exactly when it is [idle]. *)
Theorem panel_follows_state_without_overlap (evs : list Event) (ss : Session) :
  undisturbed initialSession evs ->
  contract_kept evs ->
  exec initialSession evs = Some ss ->
  let s := page (store ss) in
  (rendersErrorPanel s = true <-> analysisState s = Error)
  /\ (rendersIdlePlaceholder s = true <-> analysisState s = Idle).
Proof.
  intros Hcalm Hret Hexec s.
  assert (Hinit : tidy_session initialSession).
  { split; [split; discriminate | exact I]. }
  destruct (exec_tidy evs initialSession ss eq_refl Hinit Hcalm Hret Hexec)
    as [Hst _].
  unfold message_matches_state in Hst. fold s in Hst.
  split; [exact Hst |]. unfold rendersIdlePlaceholder.
  rewrite andb_true_iff, bool_decide_eq_true, negb_true_iff. split.
  - tauto.
  - intros Hidle. split; [exact Hidle |].
    destruct (truthy (error s)); [| reflexivity].
    assert (Herr : analysisState s = Error) by (apply Hst; reflexivity).
    congruence.
Qed.

Lemma panel_follows_state_without_overlap_witness :
  let evs := [InputChanged [leaf]; ClickAnalyze;
              Settle 0 (predicted (Fulfilled model_unavailable))] in
  match exec initialSession evs with
  | Some ss =>
      analysisState (page (store ss)) = Error
      /\ rendersErrorPanel (page (store ss)) = true
  | None => False
  end.
Proof.
  intros evs.
  assert (Hcalm : undisturbed initialSession evs).
  { vm_compute. repeat split; intros; discriminate. }
  assert (Hret : contract_kept evs).
  { repeat constructor. }
  destruct (exec initialSession evs) as [ss |] eqn:Hexec.
  - assert (Ha : analysisState (page (store ss)) = Error).
    { vm_compute in Hexec. injection Hexec as <-. reflexivity. }
    split; [exact Ha |].
    destruct (panel_follows_state_without_overlap evs ss Hcalm Hret Hexec)
      as [Hpanel _].
    now apply Hpanel.
  - vm_compute in Hexec. discriminate.
Defined.

(** ** What a reply can change *)

(** With no condition on the store, any update keeps it. *)
Lemma any_store_kept (u : Setter) (st : Store) :
  result_set u -> True -> True.
Proof. tauto. Qed.

Lemma dispatch_parks_nothing (m : Async unit) (ss : Session) :
  parked (advance m (store ss)) = None ->
  inflight (dispatch m ss) = inflight ss.
Proof. intros Hp. unfold dispatch. cbn. rewrite Hp. apply app_nil_r. Qed.

Lemma step_results_only (ss ss' : Session) (ev : Event) :
  Forall (parked_confined result_set (fun _ => True)) (inflight ss) ->
  step ss ev = Some ss' ->
  Forall (parked_confined result_set (fun _ => True)) (inflight ss').
Proof.
  intros Hin Hstep. destruct ev; cbn in Hstep.
  - destruct (bool_decide _); [| discriminate]. injection Hstep as <-.
    now rewrite dispatch_parks_nothing.
  - destruct (bool_decide _); [| discriminate]. injection Hstep as <-.
    now rewrite dispatch_parks_nothing.
  - destruct (rendersPreview _); [discriminate |]. injection Hstep as <-.
    rewrite dispatch_parks_nothing; [exact Hin |].
    apply advance_inert, handleDrag_inert.
  - destruct (rendersPreview _); [discriminate |]. injection Hstep as <-.
    rewrite dispatch_parks_nothing; [exact Hin |].
    destruct files as [| file rest]; [reflexivity |].
    apply (selectFile_resting file (apply_setter (setDragActive false) (store ss))).
  - destruct (rendersPreview _); [discriminate |]. injection Hstep as <-.
    rewrite dispatch_parks_nothing; [exact Hin |].
    destruct files as [| file rest]; [reflexivity |].
    apply (selectFile_resting file (store ss)).
  - destruct (rendersPreview _); [| discriminate]. injection Hstep as <-.
    now rewrite dispatch_parks_nothing.
  - destruct (analyzeDisabled _); [discriminate |]. injection Hstep as <-.
    apply (confined_dispatch (fun _ => True) result_set (fun _ => True)
             any_store_kept (handleAnalyze (page (store ss))) ss);
      [split; [exact I | exact Hin] | apply handleAnalyze_result_confined].
  - destruct (rendersSpeechFallback _); [| discriminate]. injection Hstep as <-.
    now rewrite dispatch_parks_nothing.
  - destruct (readers ss !! i); [| discriminate]. injection Hstep as <-.
    now rewrite dispatch_parks_nothing.
  - destruct (inflight ss !! i) as [sus |] eqn:Hi; [| discriminate].
    destruct (resume sus rep) as [m |] eqn:Hm; [| discriminate].
    injection Hstep as <-.
    apply (confined_settle (fun _ => True) result_set (fun _ => True)
             any_store_kept ss i sus rep m); [split; [exact I | exact Hin] | exact Hi | exact Hm].
Qed.

Lemma exec_results_only (evs : list Event) :
  forall ss ss',
    Forall (parked_confined result_set (fun _ => True)) (inflight ss) ->
    exec ss evs = Some ss' ->
    Forall (parked_confined result_set (fun _ => True)) (inflight ss').
Proof.
  induction evs as [| ev evs IH]; intros ss ss' Hss Hexec; cbn in *.
  - injection Hexec as <-. exact Hss.
  - destruct (step ss ev) as [ss1 |] eqn:Hstep; [| discriminate].
    apply (IH ss1 ss'); [| exact Hexec]. now apply (step_results_only ss ss1 ev).
Qed.

(** X16.  In every session, a gateway reply changes only the stage and
    the result cells: the selected crop, language and image and the
    upload component's state are what they were before the reply.  And
    a reply never leaves the page [idle]: it moves it to the stage of
    the next call, to [complete] or to [error], also when the image of
    that cycle was removed or replaced in the meantime, since no
    handler cancels a pending call. *)
Theorem reply_writes_stage_and_results_only
  (evs : list Event) (ss ss' : Session) (i : nat) (rep : Reply) :
  exec initialSession evs = Some ss ->
  step ss (Settle i rep) = Some ss' ->
  selectedCrop (page (store ss')) = selectedCrop (page (store ss))
  /\ selectedLanguage (page (store ss')) = selectedLanguage (page (store ss))
  /\ selectedImage (page (store ss')) = selectedImage (page (store ss))
  /\ upload (store ss') = upload (store ss)
  /\ analysisState (page (store ss')) <> Idle.
Proof.
  intros Hexec Hstep.
  assert (Hres : Forall (parked_confined result_set (fun _ => True)) (inflight ss)).
  { apply (exec_results_only evs initialSession ss); [constructor | exact Hexec]. }
  assert (Hinit : stage_shown initialSession).
  { split; [constructor | discriminate]. }
  destruct (exec_stage_shown evs initialSession ss Hinit Hexec) as [Hstaged _].
  cbn in Hstep.
  destruct (inflight ss !! i) as [sus |] eqn:Hi; [| discriminate].
  destruct (resume sus rep) as [m |] eqn:Hm; [| discriminate].
  injection Hstep as <-.
  pose proof (proj1 (Forall_lookup _ _) Hres i sus Hi) as Hsus.
  pose proof (proj1 (Forall_lookup _ _) Hstaged i sus Hi) as Hst.
  destruct sus as [r k]. destruct (resume_continues r k rep m Hm) as [o ->].
  destruct Hsus as [_ Hk]. cbn in Hst.
  destruct (confined_advance (fun st' => inputs_of st' = inputs_of (store ss))
              result_set (fun _ => True)
              (result_set_keeps_inputs (inputs_of (store ss)))
              (k o) (store ss) (Hk o) eq_refl) as [Hinputs _].
  pose proof (advance_staged (k o) None (store ss) (Hst o)) as Hstage.
  cbv zeta in Hstage. cbn.
  unfold inputs_of in Hinputs. injection Hinputs as H1 H2 H3 H4.
  repeat (split; [assumption |]).
  destruct (parked (advance (k o) (store ss))) as [[r' k'] |].
  - destruct Hstage as [-> _]; [discriminate |]. destruct r'; discriminate.
  - destruct Hstage as [-> | ->]; [discriminate | |]; discriminate.
Qed.

Lemma reply_writes_stage_and_results_only_witness :
  match exec initialSession reselect_during_call with
  | Some ss =>
      match step ss (Settle 0 (predicted (Fulfilled early_blight))) with
      | Some ss' =>
          selectedImage (page (store ss')) = Some second_leaf
          /\ analysisState (page (store ss')) <> Idle
      | None => False
      end
  | None => False
  end.
Proof.
  destruct (exec initialSession reselect_during_call) as [ss |] eqn:Hexec;
    [| vm_compute in Hexec; discriminate].
  destruct (step ss (Settle 0 (predicted (Fulfilled early_blight))))
    as [ss' |] eqn:Hstep.
  - destruct (reply_writes_stage_and_results_only
                reselect_during_call ss ss' 0
                (predicted (Fulfilled early_blight)) Hexec Hstep)
      as (_ & _ & Himg & _ & Hidle).
    split; [| exact Hidle]. rewrite Himg.
    vm_compute in Hexec. injection Hexec as <-. reflexivity.
  - vm_compute in Hexec. injection Hexec as <-.
    vm_compute in Hstep. discriminate.
Defined.

(** ** The idle page *)

Lemma advance_selection_only (m : Async unit) :
  selection_only m = true ->
  forall st,
    let s' := page (reached (advance m st)) in
    parked (advance m st) = None
    /\ analysisState s' = analysisState (page st)
    /\ disease s' = disease (page st)
    /\ explanation s' = explanation (page st)
    /\ audioBase64 s' = audioBase64 (page st)
    /\ error s' = error (page st).
Proof.
  induction m as [x | e | u k IH | o k IH | r k IH]; intros Hm st; cbn in *.
  - repeat split.
  - repeat split.
  - assert (Hk : selection_only k = true) by (destruct u; congruence).
    destruct (IH Hk (apply_setter u st)) as (Hp & Ha & Hd & He & Hau & Her).
    split; [exact Hp |]. rewrite Ha, Hd, He, Hau, Her.
    destruct u; try discriminate; repeat split.
  - now apply IH.
  - discriminate.
Qed.

Lemma dispatch_selection_only (m : Async unit) (ss : Session) :
  selection_only m = true -> idle_is_clean ss -> idle_is_clean (dispatch m ss).
Proof.
  intros Hm [Hin Hidle].
  destruct (advance_selection_only m Hm (store ss))
    as (Hp & Ha & Hd & He & Hau & Her).
  unfold idle_is_clean, cells_empty, dispatch in *. cbn.
  rewrite Hp, Ha, Hd, He, Hau, Her. cbn. rewrite app_nil_r.
  split; [exact Hin | exact Hidle].
Qed.

Lemma dispatch_staged_clean (m : Async unit) (ss : Session) :
  staged None m -> Forall restaged (inflight ss) ->
  idle_is_clean (dispatch m ss).
Proof.
  intros Hm Hin.
  pose proof (advance_staged m None (store ss) Hm) as H.
  cbv zeta in H. unfold idle_is_clean, dispatch. cbn.
  destruct (parked (advance m (store ss))) as [[r k] |]; cbn.
  - destruct H as [Ha Hk]; [discriminate |]. split.
    + apply Forall_app. split; [exact Hin | now repeat constructor].
    + rewrite Ha. destruct r; discriminate.
  - rewrite app_nil_r. split; [exact Hin |].
    destruct H as [-> | ->]; [discriminate | |]; discriminate.
Qed.

Lemma selectFile_clean (file : File) (st : Store) :
  let p := advance (handleFile handleImageSelect file) st in
  parked p = None
  /\ ((analysisState (page st) = Idle -> cells_empty (page st)) ->
      analysisState (page (reached p)) = Idle -> cells_empty (page (reached p))).
Proof.
  unfold handleFile, cells_empty.
  destruct (negb (String.prefix "image/" (file_type file))); cbn; [tauto |].
  destruct (maxFileSize <? file_size file)%Z; cbn; tauto.
Qed.

Lemma step_idle_is_clean (ss ss' : Session) (ev : Event) :
  idle_is_clean ss -> step ss ev = Some ss' -> idle_is_clean ss'.
Proof.
  intros Hss Hstep. destruct ev; cbn in Hstep.
  - destruct (bool_decide _); [| discriminate]. injection Hstep as <-.
    now apply dispatch_selection_only.
  - destruct (bool_decide _); [| discriminate]. injection Hstep as <-.
    now apply dispatch_selection_only.
  - destruct (rendersPreview _); [discriminate |]. injection Hstep as <-.
    apply dispatch_selection_only; [| exact Hss]. unfold handleDrag.
    destruct (bool_decide (eventType = "dragenter")
              || bool_decide (eventType = "dragover")); [reflexivity |].
    destruct (bool_decide (eventType = "dragleave")); reflexivity.
  - destruct (rendersPreview _); [discriminate |]. injection Hstep as <-.
    destruct files as [| file rest].
    + now apply dispatch_selection_only.
    + destruct Hss as [Hin Hidle].
      destruct (selectFile_clean file
                  (apply_setter (setDragActive false) (store ss))) as [Hp Hc].
      unfold idle_is_clean, dispatch. cbn in *. rewrite Hp. cbn.
      rewrite app_nil_r. split; [exact Hin | now apply Hc].
  - destruct (rendersPreview _); [discriminate |]. injection Hstep as <-.
    destruct files as [| file rest].
    + now apply dispatch_selection_only.
    + destruct Hss as [Hin Hidle].
      destruct (selectFile_clean file (store ss)) as [Hp Hc].
      unfold idle_is_clean, dispatch. cbn in *. rewrite Hp. cbn.
      rewrite app_nil_r. split; [exact Hin | now apply Hc].
  - destruct (rendersPreview _); [| discriminate]. injection Hstep as <-.
    destruct Hss as [Hin _]. unfold idle_is_clean, cells_empty, dispatch. cbn.
    rewrite app_nil_r. split; [exact Hin | tauto].
  - destruct (analyzeDisabled (page (store ss))) eqn:Hgate; [discriminate |].
    injection Hstep as <-.
    unfold analyzeDisabled in Hgate. apply orb_false_iff in Hgate.
    destruct Hgate as [Himg _].
    apply negb_false_iff, bool_decide_eq_true in Himg.
    apply dispatch_staged_clean; [now apply handleAnalyze_staged | apply Hss].
  - destruct (rendersSpeechFallback _); [| discriminate]. injection Hstep as <-.
    now apply dispatch_selection_only.
  - destruct (readers ss !! i); [| discriminate]. injection Hstep as <-.
    apply dispatch_selection_only; [reflexivity | exact Hss].
  - destruct (inflight ss !! i) as [sus |] eqn:Hi; [| discriminate].
    destruct (resume sus rep) as [m |] eqn:Hm; [| discriminate].
    injection Hstep as <-. destruct Hss as [Hin _].
    pose proof (proj1 (Forall_lookup _ _) Hin i sus Hi) as Hsus.
    destruct sus as [r k]. destruct (resume_continues r k rep m Hm) as [o ->].
    apply dispatch_staged_clean; [apply Hsus | cbn; now apply Forall_delete].
Qed.

Lemma exec_idle_is_clean (evs : list Event) :
  forall ss ss', idle_is_clean ss -> exec ss evs = Some ss' -> idle_is_clean ss'.
Proof.
  induction evs as [| ev evs IH]; intros ss ss' Hss Hexec; cbn in *.
  - injection Hexec as <-. exact Hss.
  - destruct (step ss ev) as [ss1 |] eqn:Hstep; [| discriminate].
    apply (IH ss1 ss'); [| exact Hexec].
    now apply (step_idle_is_clean ss ss1 ev).
Qed.

(** X17.  In every session, also with overlapping cycles, an [idle]
    page is an empty one: whenever AnalysisState is [idle], the disease
    label, the explanation, the audio payload and the error message are
    all empty, so the placeholder is rendered and none of the error
    panel, the disease card, the explanation, the audio player and the
    speech control is.  (The validation message of [handleAnalyze] is
    never set: the button that calls it is disabled without an image.) *)
Theorem idle_page_is_empty (evs : list Event) (ss : Session) :
  exec initialSession evs = Some ss ->
  let s := page (store ss) in
  analysisState s = Idle ->
  (disease s = "" /\ explanation s = "" /\ audioBase64 s = "" /\ error s = "")
  /\ rendersIdlePlaceholder s = true
  /\ rendersErrorPanel s = false
  /\ rendersDiseaseCard s = false
  /\ rendersExplanation s = false
  /\ rendersAudioPlayer s = false
  /\ rendersSpeechFallback s = false.
Proof.
  intros Hexec s Hidle.
  assert (Hinit : idle_is_clean initialSession).
  { split; [constructor |]. intros _. repeat split. }
  destruct (exec_idle_is_clean evs initialSession ss Hinit Hexec) as [_ Hclean].
  destruct (Hclean Hidle) as (Hd & He & Ha & Herr). fold s in Hd, He, Ha, Herr.
  split; [tauto |].
  unfold rendersIdlePlaceholder, rendersErrorPanel, rendersDiseaseCard,
    rendersExplanation, rendersAudioPlayer, rendersSpeechFallback.
  rewrite Hd, He, Ha, Herr, Hidle. repeat split.
Qed.

Lemma idle_page_is_empty_witness :
  match exec initialSession
          (reselect_during_call
           ++ [ClickAnalyze;
               Settle 0 (predicted (Fulfilled early_blight));
               LoadEnd 0 (Some "data:image/png;base64,BBBB");
               ClickRemove])%list with
  | Some ss =>
      analysisState (page (store ss)) = Idle
      /\ pending_requests ss
         = [predictDisease second_leaf "Tomato";
            getExplanation "Tomato" "Early Blight" "English"]
      /\ rendersIdlePlaceholder (page (store ss)) = true
      /\ rendersDiseaseCard (page (store ss)) = false
  | None => False
  end.
Proof.
  destruct (exec initialSession
              (reselect_during_call
               ++ [ClickAnalyze;
                   Settle 0 (predicted (Fulfilled early_blight));
                   LoadEnd 0 (Some "data:image/png;base64,BBBB");
                   ClickRemove])%list) as [ss |] eqn:Hexec;
    [| vm_compute in Hexec; discriminate].
  assert (Hfacts : analysisState (page (store ss)) = Idle
                   /\ pending_requests ss
                      = [predictDisease second_leaf "Tomato";
                         getExplanation "Tomato" "Early Blight" "English"]).
  { vm_compute in Hexec. injection Hexec as <-. split; reflexivity. }
  destruct Hfacts as [Hidle Hreq].
  destruct (idle_page_is_empty _ ss Hexec Hidle)
    as (_ & Hplace & _ & Hcard & _).
  split; [exact Hidle | split; [exact Hreq | split; [exact Hplace | exact Hcard]]].
Defined.

(** ** One cycle in flight (C7) *)

Lemma advance_selection_only_gate (m : Async unit) :
  selection_only m = true ->
  forall st,
    parked (advance m st) = None
    /\ analyzeDisabled (page (reached (advance m st)))
       = analyzeDisabled (page st).
Proof.
  induction m as [x | e | u k IH | o k IH | r k IH]; intros Hm st; cbn in *.
  - split; reflexivity.
  - split; reflexivity.
  - assert (Hk : selection_only k = true) by (destruct u; congruence).
    destruct (IH Hk (apply_setter u st)) as [Hp Hg]. split; [exact Hp |].
    rewrite Hg. destruct u; try discriminate; reflexivity.
  - now apply IH.
  - discriminate.
Qed.

Lemma dispatch_selection_only_gated (m : Async unit) (ss : Session) :
  selection_only m = true -> gated ss -> gated (dispatch m ss).
Proof.
  intros Hm Hss. destruct (advance_selection_only_gate m Hm (store ss)) as [Hp Hg].
  unfold gated, dispatch in *. cbn. rewrite Hp, Hg. cbn.
  rewrite app_nil_r. exact Hss.
Qed.

Lemma dispatch_idle_session (m : Async unit) (ss : Session) :
  inflight ss = [] -> parked (advance m (store ss)) = None ->
  gated (dispatch m ss).
Proof.
  intros Hnil Hp. unfold gated, dispatch. cbn. rewrite Hnil, Hp. exact I.
Qed.

Lemma dispatch_cycle_gated (m : Async unit) (ss : Session) :
  inflight ss = [] ->
  staged None m -> confined result_set (fun _ => True) m ->
  gated (dispatch m ss).
Proof.
  intros Hnil Hstaged Hconf.
  pose proof (advance_staged m None (store ss) Hstaged) as Hs.
  destruct (confined_advance (fun _ => True) result_set (fun _ => True)
              any_store_kept m (store ss) Hconf I) as [_ Hc].
  cbv zeta in Hs. unfold gated, dispatch. cbn. rewrite Hnil. cbn.
  destruct (parked (advance m (store ss))) as [[r k] |]; [| exact I].
  destruct Hs as [Ha Hk]; [discriminate |]. destruct Hc as [_ Hc].
  split; [| split; assumption].
  unfold analyzeDisabled. rewrite Ha, stage_is_loading. apply orb_true_r.
Qed.

Lemma rejected_file_advance (file : File) (st : Store) :
  ~ acceptable file ->
  parked (advance (handleFile handleImageSelect file) st) = None
  /\ reached (advance (handleFile handleImageSelect file) st) = st.
Proof.
  intros Hbad. unfold handleFile, maxFileSize.
  destruct (String.prefix "image/" (file_type file)) eqn:Hp; cbn; [| tauto].
  destruct (Z.ltb_spec (10 * 1024 * 1024) (file_size file)) as [Hlt | Hle];
    cbn; [tauto |].
  exfalso. apply Hbad. split; [exact Hp | lia].
Qed.

Lemma offered_file_gated (ss : Session) (file : File) (st : Store) :
  (acceptable file -> inflight ss = []) ->
  analyzeDisabled (page st) = analyzeDisabled (page (store ss)) ->
  gated ss ->
  let p := advance (handleFile handleImageSelect file) st in
  gated {| store := reached p;
           inflight := inflight ss ++ option_list (parked p);
           readers := readers ss ++ started_reads (emitted p);
           outputs := outputs ss ++ emitted p |}.
Proof.
  intros Hcalm Hgate Hss p. subst p.
  destruct (acceptable_dec file) as [Hok | Hbad].
  - destruct (selectFile_resting file st) as [Hp _].
    unfold gated. cbn. rewrite (Hcalm Hok), Hp. exact I.
  - destruct (rejected_file_advance file st Hbad) as [Hp Hst].
    unfold gated in *. cbn. rewrite Hp, Hst, Hgate. cbn.
    rewrite app_nil_r. exact Hss.
Qed.

Lemma step_gated (ss ss' : Session) (ev : Event) :
  gated ss ->
  (offers_image ev -> inflight ss = []) ->
  step ss ev = Some ss' ->
  gated ss'.
Proof.
  intros Hss Hcalm Hstep. destruct ev; cbn in Hstep.
  - destruct (bool_decide _); [| discriminate]. injection Hstep as <-.
    now apply dispatch_selection_only_gated.
  - destruct (bool_decide _); [| discriminate]. injection Hstep as <-.
    now apply dispatch_selection_only_gated.
  - destruct (rendersPreview _); [discriminate |]. injection Hstep as <-.
    apply dispatch_selection_only_gated; [| exact Hss]. unfold handleDrag.
    destruct (bool_decide (eventType = "dragenter")
              || bool_decide (eventType = "dragover")); [reflexivity |].
    destruct (bool_decide (eventType = "dragleave")); reflexivity.
  - destruct (rendersPreview _); [discriminate |]. injection Hstep as <-.
    destruct files as [| file rest].
    + now apply dispatch_selection_only_gated.
    + apply (offered_file_gated ss file
               (apply_setter (setDragActive false) (store ss)));
        [exact Hcalm | reflexivity | exact Hss].
  - destruct (rendersPreview _); [discriminate |]. injection Hstep as <-.
    destruct files as [| file rest].
    + now apply dispatch_selection_only_gated.
    + apply (offered_file_gated ss file (store ss));
        [exact Hcalm | reflexivity | exact Hss].
  - destruct (rendersPreview _); [| discriminate]. injection Hstep as <-.
    unfold gated in *. cbn. rewrite app_nil_r.
    destruct (inflight ss) as [| [r k] [| sus rest]]; [exact I | | exact Hss].
    split; [reflexivity | apply Hss].
  - destruct (analyzeDisabled (page (store ss))) eqn:Hgate; [discriminate |].
    injection Hstep as <-.
    assert (Hnil : inflight ss = []).
    { unfold gated in Hss.
      destruct (inflight ss) as [| [r k] [| sus rest]];
        [reflexivity | destruct Hss; congruence | destruct Hss]. }
    unfold analyzeDisabled in Hgate. apply orb_false_iff in Hgate.
    destruct Hgate as [Himg _].
    apply negb_false_iff, bool_decide_eq_true in Himg.
    apply dispatch_cycle_gated;
      [exact Hnil | now apply handleAnalyze_staged
      | apply handleAnalyze_result_confined].
  - destruct (rendersSpeechFallback _); [| discriminate]. injection Hstep as <-.
    now apply dispatch_selection_only_gated.
  - destruct (readers ss !! i); [| discriminate]. injection Hstep as <-.
    apply dispatch_selection_only_gated; [reflexivity | exact Hss].
  - destruct (inflight ss !! i) as [sus |] eqn:Hi; [| discriminate].
    destruct (resume sus rep) as [m |] eqn:Hm; [| discriminate].
    injection Hstep as <-. unfold gated in Hss.
    destruct (inflight ss) as [| [r k] [| sus' rest]] eqn:Hfl;
      [discriminate | | destruct Hss].
    destruct i as [| i]; [| discriminate]. injection Hi as <-.
    destruct (resume_continues r k rep m Hm) as [o ->].
    destruct Hss as (_ & Hstaged & Hconf).
    apply dispatch_cycle_gated; [reflexivity | apply Hstaged | apply Hconf].
Qed.

Lemma exec_gated (evs : list Event) :
  forall ss ss',
    gated ss -> no_image_offered_while_pending ss evs ->
    exec ss evs = Some ss' -> gated ss'.
Proof.
  induction evs as [| ev evs IH]; intros ss ss' Hss Hcalm Hexec; cbn in *.
  - injection Hexec as <-. exact Hss.
  - destruct Hcalm as [Hev Hrest].
    destruct (step ss ev) as [ss1 |] eqn:Hstep; [| discriminate].
    apply (IH ss1 ss'); [| exact Hrest | exact Hexec].
    now apply (step_gated ss ss1 ev).
Qed.

(** C7, amended.  The Analyze button is disabled exactly while
    AnalysisState is [predicting], [explaining] or [generating-voice],
    or while no image is selected, and a disabled button starts
    nothing.  In every session in which no file that passes validation
    is dropped or chosen while a remote call is pending, a call in
    flight means that exactly one cycle is in flight and that the
    button is disabled: no second cycle can be started.  Removing the
    image while a call is pending, or offering a file that is
    rejected, does not change that. *)
Theorem analyze_button_gate :
  (forall s,
     analyzeDisabled s = true
     <-> (analysisState s = Predicting \/ analysisState s = Explaining
          \/ analysisState s = GeneratingVoice)
         \/ selectedImage s = None)
  /\ (forall ss,
        analyzeDisabled (page (store ss)) = true -> step ss ClickAnalyze = None)
  /\ (forall evs ss,
        no_image_offered_while_pending initialSession evs ->
        exec initialSession evs = Some ss ->
        inflight ss <> [] ->
        length (inflight ss) = 1%nat
        /\ analyzeDisabled (page (store ss)) = true
        /\ step ss ClickAnalyze = None).
Proof.
  split; [exact analyzeDisabled_spec | split].
  - intros ss H. cbn. now rewrite H.
  - intros evs ss Hcalm Hexec Hne.
    assert (Hss : gated ss).
    { apply (exec_gated evs initialSession ss); [exact I | exact Hcalm | exact Hexec]. }
    unfold gated in Hss.
    destruct (inflight ss) as [| [r k] [| sus rest]];
      [congruence | | destruct Hss].
    destruct Hss as [Hgate _].
    split; [reflexivity | split; [exact Hgate |]].
    cbn. now rewrite Hgate.
Qed.

Lemma analyze_button_gate_witness :
  let evs := [InputChanged [leaf];
              LoadEnd 0 (Some "data:image/jpeg;base64,AAAA");
              ClickAnalyze; ClickRemove] in
  no_image_offered_while_pending initialSession evs
  /\ match exec initialSession evs with
     | Some ss =>
         pending_requests ss = [predictDisease leaf "Tomato"]
         /\ analysisState (page (store ss)) = Idle
         /\ step ss ClickAnalyze = None
     | None => False
     end.
Proof.
  intros evs.
  assert (Hcalm : no_image_offered_while_pending initialSession evs).
  { cbn. repeat split; intros H; try reflexivity; destruct H. }
  split; [exact Hcalm |].
  destruct (exec initialSession evs) as [ss |] eqn:Hexec.
  - assert (Hfacts : pending_requests ss = [predictDisease leaf "Tomato"]
                     /\ analysisState (page (store ss)) = Idle
                     /\ inflight ss <> []).
    { vm_compute in Hexec. injection Hexec as <-.
      repeat split. discriminate. }
    destruct Hfacts as (Hreq & Hidle & Hne).
    split; [exact Hreq | split; [exact Hidle |]].
    destruct analyze_button_gate as (_ & _ & Hgate).
    apply (Hgate evs ss Hcalm Hexec Hne).
  - vm_compute in Hexec. discriminate.
Defined.

(** ** Result presentation in every session (C8) *)






















(** ** Where the provisos bite *)

(** A file that passes validation resets the page to [idle] with the
    image selected, so the Analyze button is enabled after it whether or
    not a call is pending, and the pending calls stay pending. *)
Lemma accepted_offer_enables_button (ss ss' : Session) (file : File) :
  acceptable file ->
  step ss (InputChanged [file]) = Some ss' ->
  analyzeDisabled (page (store ss')) = false
  /\ selectedImage (page (store ss')) = Some file
  /\ inflight ss' = inflight ss.
Proof.
  intros [Hp Hsz] Hstep. cbn in Hstep.
  destruct (rendersPreview _); [discriminate |]. injection Hstep as <-.
  unfold dispatch, handleChange, handleFile, maxFileSize. rewrite Hp. cbn [negb].
  destruct (Z.ltb_spec (10 * 1024 * 1024) (file_size file)) as [Hlt | _];
    [lia |].
  cbn. rewrite app_nil_r. repeat split.
Qed.

(** A promise rejected with an [Error] whose message is empty leaves
    the page in [error] with no message, and so without the panel. *)
Lemma empty_rejection_shows_no_panel :
  option_map (fun ss => (analysisState (page (store ss)),
                         error (page (store ss)),
                         rendersErrorPanel (page (store ss))))
             (exec initialSession
                [InputChanged [leaf]; ClickAnalyze;
                 Settle 0 (predicted (Rejected (ErrorObj "")))])
  = Some (Error, "", false).
Proof. vm_compute. reflexivity. Qed.
